(** * Price-regression notebook (code/model.ipynb): a shallow embedding

    The notebook is a straight-line script over pandas data frames and
    scikit-learn (0.19) search objects.  Each expression of the notebook is
    embedded as a function of the same name; a Python exception is [None].

    Conventions.
    - float64 values are idealised as exact rationals ([Q]); a missing value
      (NaN) is [None].
    - The pseudo-random generator (numpy's RandomState), the numeric solvers
      behind [Ridge.fit] and [GradientBoostingRegressor.fit] and the float
      square root are kept abstract: they are [Variable]s of the sections
      below, so every statement holds for any generator and any solver. *)

From Stdlib Require Import String List ZArith QArith Qround Qabs Lia Bool.
From Stdlib Require Import Permutation Sorted.
Import ListNotations.
Open Scope string_scope.
Open Scope list_scope.

(** ** Exceptions as [option] *)

Notation "x <- e ;; k" :=
  (match e with Some x => k | None => None end)
  (at level 61, e at next level, right associativity, only parsing).
Notation "' p <- e ;; k" :=
  (match e with Some p => k | None => None end)
  (at level 61, p pattern, e at next level, right associativity, only parsing).

Fixpoint mapM {A B : Type} (f : A -> option B) (l : list A) : option (list B) :=
  match l with
  | [] => Some []
  | a :: l' => b <- f a ;; bs <- mapM f l' ;; Some (b :: bs)
  end.

(** numpy fancy indexing [a[idx]]: IndexError when an index is out of range. *)
Definition take {A : Type} (idx : list nat) (a : list A) : option (list A) :=
  mapM (nth_error a) idx.

(** numpy boolean indexing [a[mask]]. *)
Fixpoint compress {A : Type} (mask : list bool) (a : list A) : list A :=
  match mask, a with
  | b :: mask', x :: a' => if b then x :: compress mask' a' else compress mask' a'
  | _, _ => []
  end.

(** A stable sort by a boolean order, used wherever the libraries sort. *)
Section Sort.
Context {A : Type} (leb : A -> A -> bool).

Fixpoint insert_sorted (x : A) (l : list A) : list A :=
  match l with
  | [] => [x]
  | y :: l' => if leb x y then x :: l else y :: insert_sorted x l'
  end.

Fixpoint sort (l : list A) : list A :=
  match l with
  | [] => []
  | x :: l' => insert_sorted x (sort l')
  end.
End Sort.

(** ** pandas *)

Module Pandas.

Inductive dtype := int64 | float64 | object | uint8.

Definition dtype_eqb (a b : dtype) : bool :=
  match a, b with
  | int64, int64 | float64, float64 | object, object | uint8, uint8 => true
  | _, _ => false
  end.

(** The values of a column, by dtype.  An int64 or uint8 column cannot hold
    NaN; a float64 column holds numbers or NaN; an object column, as
    [read_csv] builds it, holds text or NaN. *)
Inductive array :=
| Int64 (v : list Z)
| Float64 (v : list (option Q))
| Object (v : list (option string))
| UInt8 (v : list Z).

Record Series := { name : string; values : array }.
Record DataFrame := { index : list Z; columns : list Series }.

Definition dtype_of (a : array) : dtype :=
  match a with
  | Int64 _ => int64 | Float64 _ => float64 | Object _ => object | UInt8 _ => uint8
  end.

Definition size (a : array) : nat :=
  match a with
  | Int64 v | UInt8 v => length v
  | Float64 v => length v
  | Object v => length v
  end.

Definition is_none {A : Type} (o : option A) : bool :=
  match o with None => true | Some _ => false end.

(** [s.isna()] *)
Definition isna (a : array) : list bool :=
  match a with
  | Int64 v | UInt8 v => map (fun _ => false) v
  | Float64 v => map is_none v
  | Object v => map is_none v
  end.

Definition array_compress (mask : list bool) (a : array) : array :=
  match a with
  | Int64 v => Int64 (compress mask v)
  | Float64 v => Float64 (compress mask v)
  | Object v => Object (compress mask v)
  | UInt8 v => UInt8 (compress mask v)
  end.

Definition array_take (idx : list nat) (a : array) : option array :=
  match a with
  | Int64 v => v' <- take idx v ;; Some (Int64 v')
  | Float64 v => v' <- take idx v ;; Some (Float64 v')
  | Object v => v' <- take idx v ;; Some (Object v')
  | UInt8 v => v' <- take idx v ;; Some (UInt8 v')
  end.

(** [df[label]] / [df.label]: KeyError when there is no such column. *)
Definition getitem (df : DataFrame) (label : string) : option Series :=
  find (fun s => name s =? label) (columns df).

Definition column_names (df : DataFrame) : list string := map name (columns df).

(** [df[mask]]: keep the rows whose mask bit is set, labels included. *)
Definition loc_mask (df : DataFrame) (mask : list bool) : DataFrame :=
  {| index := compress mask (index df);
     columns := map (fun s => {| name := name s; values := array_compress mask (values s) |})
                    (columns df) |}.

(** [df.iloc[idx]]: rows by position, labels included. *)
Definition iloc (df : DataFrame) (idx : list nat) : option DataFrame :=
  ix <- take idx (index df) ;;
  cs <- mapM (fun s => v <- array_take idx (values s) ;;
                       Some {| name := name s; values := v |}) (columns df) ;;
  Some {| index := ix; columns := cs |}.

(** [df.dropna(subset=labels)]: drop the rows that have NaN in any of the
    listed columns. *)
Fixpoint notna_all (df : DataFrame) (labels : list string) (mask : list bool)
  : option (list bool) :=
  match labels with
  | [] => Some mask
  | l :: labels' =>
      s <- getitem df l ;;
      notna_all df labels' (map (fun p => fst p && negb (snd p))
                                (combine mask (isna (values s))))
  end.

Definition dropna (df : DataFrame) (subset : list string) : option DataFrame :=
  mask <- notna_all df subset (map (fun _ => true) (index df)) ;;
  Some (loc_mask df mask).

(** [df.select_dtypes(include=dtypes)] *)
Definition select_dtypes (df : DataFrame) (include : list dtype) : DataFrame :=
  {| index := index df;
     columns := filter (fun s => existsb (dtype_eqb (dtype_of (values s))) include)
                       (columns df) |}.

Definition mem (x : string) (l : list string) : bool := existsb (String.eqb x) l.

(** [df.drop(labels, axis=1)]: KeyError when a label is not a column. *)
Definition drop (df : DataFrame) (labels : list string) : option DataFrame :=
  if forallb (fun l => mem l (column_names df)) labels
  then Some {| index := index df;
               columns := filter (fun s => negb (mem (name s) labels)) (columns df) |}
  else None.

(** *** [pd.get_dummies(df)]

    With the default arguments every object column is replaced by one uint8
    indicator column per level, named [<column>_<level>]; the levels are the
    distinct non-missing values in sorted order; NaN is not a level
    ([dummy_na=False]).  The columns that are not encoded come first. *)

Fixpoint unique (l : list string) : list string :=
  match l with
  | [] => []
  | x :: l' => if mem x l' then unique l' else x :: unique l'
  end.

Fixpoint present {A : Type} (v : list (option A)) : list A :=
  match v with
  | [] => []
  | Some x :: v' => x :: present v'
  | None :: v' => present v'
  end.

Definition levels (v : list (option string)) : list string :=
  sort String.leb (unique (present v)).

Definition indicator (level : string) (x : option string) : Z :=
  match x with
  | Some s => if s =? level then 1%Z else 0%Z
  | None => 0%Z
  end.

Definition dummy_column (prefix : string) (v : list (option string)) (level : string)
  : Series :=
  {| name := prefix ++ "_" ++ level; values := UInt8 (map (indicator level) v) |}.

Definition get_dummies_1d (s : Series) : list Series :=
  match values s with
  | Object v => map (dummy_column (name s) v) (levels v)
  | _ => []
  end.

Definition is_object (s : Series) : bool := dtype_eqb (dtype_of (values s)) object.

Definition get_dummies (df : DataFrame) : DataFrame :=
  {| index := index df;
     columns := filter (fun s => negb (is_object s)) (columns df)
                ++ flat_map get_dummies_1d (filter is_object (columns df)) |}.

(** [np.asarray(s, dtype=float64)]: ValueError on text. *)
Definition astype_float (a : array) : option (list (option Q)) :=
  match a with
  | Int64 v | UInt8 v => Some (map (fun z => Some (inject_Z z)) v)
  | Float64 v => Some v
  | Object v => mapM (fun x => match x with None => Some None | Some _ => None end) v
  end.

(** [len(df)] *)
Definition len (df : DataFrame) : nat := length (index df).

(** A frame is well formed when every column is as long as the index. *)
Definition wf (df : DataFrame) : Prop :=
  Forall (fun s => size (values s) = len df) (columns df).

(** The float array scikit-learn makes of a frame, row by row. *)
Definition as_matrix (df : DataFrame) : option (list (list (option Q))) :=
  cols <- mapM (fun s => astype_float (values s)) (columns df) ;;
  Some (map (fun i => map (fun c => nth i c None) cols) (seq 0 (len df))).

(** The target array scikit-learn makes of a series: NaN is refused. *)
Definition as_target (s : Series) : option (list Q) :=
  v <- astype_float (values s) ;; mapM (fun x => x) v.

End Pandas.

(** ** numpy *)

Module Numpy.

Definition Qsum (l : list Q) : Q := fold_right Qplus 0 l.

(** [np.mean(a)] *)
Definition mean (l : list Q) : Q := Qsum l / inject_Z (Z.of_nat (length l)).

(** [np.average(a, weights=w)] *)
Definition average (a w : list Q) : Q :=
  Qsum (map (fun p => fst p * snd p) (combine a w)) / Qsum w.

(** [np.median(a)]; NaN ([None]) for an empty array. *)
Definition median (l : list Q) : option Q :=
  let s := sort Qle_bool l in
  let n := length s in
  if (n =? 0)%nat then None
  else if Nat.odd n then nth_error s (n / 2)
  else a <- nth_error s (n / 2 - 1) ;; b <- nth_error s (n / 2) ;; Some ((a + b) / 2).

(** The first position of the largest entry ([argmax], and [argmin] of the
    ranks that [rankdata(-a, method='min')] gives). *)
Fixpoint argmax_from (i best : nat) (top : Q) (l : list Q) : nat :=
  match l with
  | [] => best
  | x :: l' =>
      if Qle_bool x top then argmax_from (S i) best top l'
      else argmax_from (S i) i x l'
  end.

Definition argmax (l : list Q) : option nat :=
  match l with
  | [] => None
  | x :: l' => Some (argmax_from 1 0 x l')
  end.

End Numpy.

(** ** scikit-learn: the estimators as the notebook configures them *)

Module Sklearn.

Record GBR := {
  n_estimators : Z;
  random_state : option Z;
  learning_rate : Q;
  max_depth : Z;
  min_samples_leaf : Z;
  max_features : option Q
}.

Inductive estimator :=
| Imputer                                (* Imputer(strategy='median') *)
| StandardScaler
| Ridge (alpha : Q)
| GradientBoostingRegressor (g : GBR).

End Sklearn.

(** ** A small concrete instance

    A counter stands for the generator and a constant predictor for the two
    solvers; with them the model runs on a frame of nine rows. *)

Module Sample.
Import Pandas Numpy Sklearn.

Definition RandomState := Z.
Definition seed (s : Z) : RandomState := s.
Definition permutation (r : RandomState) (n : nat) : list nat * RandomState :=
  (rev (seq 0 n), (r + 1)%Z).
Definition randint (r : RandomState) (high : Z) : Z * RandomState :=
  ((r mod high)%Z, (r + 1)%Z).
Definition rvs (low high : Z) (r : RandomState) : Z * RandomState :=
  ((low + r mod (high - low))%Z, (r + 1)%Z).

(** The square root rounded down to the denominator. *)
Definition sqrt (q : Q) : Q := Z.sqrt (Qnum q * Zpos (Qden q)) # Qden q.

Definition Ridge_fit (alpha : Q) (X : list (list Q)) (y : list Q) : option Q :=
  Some (Qred (mean y + alpha)).
Definition GBR_fit (g : GBR) (X : list (list Q)) (y : list Q) : option Q :=
  Some (Qred (mean y)).
Definition predict_row (m : Q) (r : list Q) : Q := m.

(** The frame as [read_csv] returns it: row 2 has no fuel, row 3 no price. *)
Definition csv : DataFrame :=
  {| index := map Z.of_nat (seq 0 9);
     columns :=
       [ {| name := "width";
            values := Float64 [Some 1; None; Some 3; Some 4; Some 5;
                               Some 6; Some 7; Some 8; Some 9] |};
         {| name := "fuel";
            values := Object [Some "gas"; Some "diesel"; None; Some "gas"; Some "gas";
                              Some "diesel"; Some "gas"; Some "gas"; Some "gas"] |};
         {| name := "price";
            values := Float64 [Some 10; Some 20; Some 30; None; Some 50;
                               Some 60; Some 70; Some 80; Some 90] |} ] |}.

(** The cleaned frame, [csv.dropna(subset=["price"])], and two of its columns. *)
Definition fuel : Series :=
  {| name := "fuel";
     values := Object [Some "gas"; Some "diesel"; None; Some "gas";
                       Some "diesel"; Some "gas"; Some "gas"; Some "gas"] |}.

Definition price : Series :=
  {| name := "price";
     values := Float64 [Some 10; Some 20; Some 30; Some 50;
                        Some 60; Some 70; Some 80; Some 90] |}.

Definition data : DataFrame :=
  {| index := [0; 1; 2; 4; 5; 6; 7; 8]%Z;
     columns :=
       [ {| name := "width";
            values := Float64 [Some 1; None; Some 3; Some 5;
                               Some 6; Some 7; Some 8; Some 9] |};
         fuel; price ] |}.

Definition X : list (list (option Q)) := [[Some 1]; [None]; [Some 3]; [Some 4]; [Some 5]].
Definition y : list Q := [10; 20; 30; 40; 50].

(** A frame without a price column, and two small feature matrices. *)
Definition unpriced : DataFrame :=
  {| index := [0; 1]%Z;
     columns := [ {| name := "width"; values := Float64 [Some 1; Some 2] |} ] |}.

Definition sparse : list (list (option Q)) :=
  [[Some 1; None]; [None; None]; [Some 3; None]].

Definition dense : list (list (option Q)) := [[Some 1; Some 10]; [Some 3; Some 30]].

(** The indicator column of [fuel] for the level [gas]. *)
Definition fuel_gas : Series :=
  {| name := "fuel_gas"; values := UInt8 [1; 0; 0; 1; 0; 1; 1; 1]%Z |}.

End Sample.

(** ** The library calls and the notebook, over an abstract generator and solver *)

Section Model.
Import Pandas Numpy Sklearn.

(** numpy's [RandomState]: seeding and the three draws the libraries make. *)
Variable RandomState : Type.
Variable RandomState_seed : Z -> RandomState.
(** [rng.permutation(n)] *)
Variable rs_permutation : RandomState -> nat -> list nat * RandomState.
(** [rng.randint(high)], a draw from [0, high) *)
Variable rs_randint : RandomState -> Z -> Z * RandomState.
(** [sp_randint(low, high).rvs(random_state=rng)], a draw from [low, high) *)
Variable randint_rvs : Z -> Z -> RandomState -> Z * RandomState.

(** [np.sqrt] on float64. *)
Variable sqrt : Q -> Q.

(** The fitted regressors, their solvers and their row-wise predictions. *)
Variable model : Type.
Variable Ridge_fit : Q -> list (list Q) -> list Q -> option model.
Variable GBR_fit : GBR -> list (list Q) -> list Q -> option model.
Variable predict_row : model -> list Q -> Q.

(** A feature matrix, row by row; [None] is NaN. *)
Definition matrix := list (list (option Q)).

(** [check_array(X)]: at least one sample is required. *)
Definition check_array (X : matrix) : option matrix :=
  match X with [] => None | _ => Some X end.

(** [check_array(X, force_all_finite=True)]: NaN is refused as well. *)
Definition check_finite (X : matrix) : option (list (list Q)) :=
  X' <- check_array X ;; mapM (mapM (fun x => x)) X'.

Definition n_features (X : matrix) : nat :=
  match X with [] => 0%nat | r :: _ => length r end.

Definition column (X : matrix) (j : nat) : list (option Q) :=
  map (fun r => nth j r None) X.

(** [Imputer(strategy='median').fit(X)]: the median of the values present in
    each column, NaN for a column with none. *)
Definition Imputer_fit (X : matrix) : option (list (option Q)) :=
  X' <- check_array X ;;
  Some (map (fun j => median (present (column X' j))) (seq 0 (n_features X'))).

(** A column whose statistic is NaN is dropped by [transform]. *)
Fixpoint impute_row (statistics : list (option Q)) (r : list (option Q))
  : list (option Q) :=
  match statistics, r with
  | Some m :: statistics', x :: r' =>
      Some (match x with Some v => v | None => m end) :: impute_row statistics' r'
  | None :: statistics', _ :: r' => impute_row statistics' r'
  | _, _ => []
  end.

Definition Imputer_transform (statistics : list (option Q)) (X : matrix)
  : option matrix :=
  X' <- check_array X ;;
  if (n_features X' =? length statistics)%nat
  then Some (map (impute_row statistics) X')
  else None.

Definition variance (l : list Q) : Q :=
  let m := mean l in mean (map (fun x => (x - m) * (x - m)) l).

(** [_handle_zeros_in_scale] *)
Definition handle_zeros_in_scale (s : Q) : Q := if Qeq_bool s 0 then 1 else s.

(** [StandardScaler().fit(X)]: [(mean_, scale_)]. *)
Definition StandardScaler_fit (X : matrix) : option (list Q * list Q) :=
  X' <- check_finite X ;;
  let cols := map (fun j => map (fun r => nth j r 0) X')
                  (seq 0 (n_features X)) in
  Some (map mean cols, map (fun c => handle_zeros_in_scale (sqrt (variance c))) cols).

Fixpoint scale_row (mean_ scale_ : list Q) (r : list Q) : list (option Q) :=
  match mean_, scale_, r with
  | m :: mean', s :: scale', x :: r' => Some ((x - m) / s) :: scale_row mean' scale' r'
  | _, _, _ => []
  end.

Definition StandardScaler_transform (mean_ scale_ : list Q) (X : matrix)
  : option matrix :=
  X' <- check_finite X ;;
  if (n_features X =? length mean_)%nat
  then Some (map (scale_row mean_ scale_) X')
  else None.

(** *** Pipeline *)

Inductive fitted :=
| Imputer_ (statistics_ : list (option Q))
| StandardScaler_ (mean_ scale_ : list Q)
| Regressor_ (m : model).

Definition Pipeline := list (string * estimator).

Definition fit_transformer (e : estimator) (X : matrix) : option fitted :=
  match e with
  | Imputer => s <- Imputer_fit X ;; Some (Imputer_ s)
  | StandardScaler => '(m, s) <- StandardScaler_fit X ;; Some (StandardScaler_ m s)
  | _ => None
  end.

Definition transform (f : fitted) (X : matrix) : option matrix :=
  match f with
  | Imputer_ s => Imputer_transform s X
  | StandardScaler_ m s => StandardScaler_transform m s X
  | Regressor_ _ => None
  end.

Definition fit_regressor (e : estimator) (X : matrix) (y : list Q) : option fitted :=
  X' <- check_finite X ;;
  if negb (length X' =? length y)%nat then None else
  match e with
  | Ridge alpha => m <- Ridge_fit alpha X' y ;; Some (Regressor_ m)
  | GradientBoostingRegressor g => m <- GBR_fit g X' y ;; Some (Regressor_ m)
  | _ => None
  end.

(** [Pipeline.fit(X, y)]: every step but the last is fit on, and then
    transforms, the output of the steps before it; the last step is the
    regressor. *)
Fixpoint Pipeline_fit (steps : Pipeline) (X : matrix) (y : list Q)
  : option (list fitted) :=
  match steps with
  | [] => None
  | [(_, e)] => f <- fit_regressor e X y ;; Some [f]
  | (_, e) :: steps' =>
      f <- fit_transformer e X ;;
      Xt <- transform f X ;;
      fs <- Pipeline_fit steps' Xt y ;;
      Some (f :: fs)
  end.

(** [Pipeline.predict(X)] *)
Fixpoint Pipeline_predict (fs : list fitted) (X : matrix) : option (list Q) :=
  match fs with
  | [] => None
  | [Regressor_ m] => X' <- check_finite X ;; Some (map (predict_row m) X')
  | f :: fs' => Xt <- transform f X ;; Pipeline_predict fs' Xt
  end.

(** [Pipeline.set_params]: a key [step__param] sets [param] of step [step];
    a key that names no step or no parameter is a ValueError. *)
Definition split_param (key : string) : option (string * string) :=
  match String.index 0 "__" key with
  | Some i => Some (substring 0 i key,
                    substring (i + 2) (String.length key - (i + 2)) key)
  | None => None
  end.

Definition set_param (e : estimator) (param : string) (v : Q) : option estimator :=
  match e with
  | Ridge _ => if param =? "alpha" then Some (Ridge v) else None
  | GradientBoostingRegressor g =>
      if param =? "learning_rate" then
        Some (GradientBoostingRegressor
                {| n_estimators := n_estimators g; random_state := random_state g;
                   learning_rate := v; max_depth := max_depth g;
                   min_samples_leaf := min_samples_leaf g;
                   max_features := max_features g |})
      else if param =? "max_depth" then
        Some (GradientBoostingRegressor
                {| n_estimators := n_estimators g; random_state := random_state g;
                   learning_rate := learning_rate g; max_depth := Qfloor v;
                   min_samples_leaf := min_samples_leaf g;
                   max_features := max_features g |})
      else if param =? "min_samples_leaf" then
        Some (GradientBoostingRegressor
                {| n_estimators := n_estimators g; random_state := random_state g;
                   learning_rate := learning_rate g; max_depth := max_depth g;
                   min_samples_leaf := Qfloor v;
                   max_features := max_features g |})
      else if param =? "max_features" then
        Some (GradientBoostingRegressor
                {| n_estimators := n_estimators g; random_state := random_state g;
                   learning_rate := learning_rate g; max_depth := max_depth g;
                   min_samples_leaf := min_samples_leaf g;
                   max_features := Some v |})
      else if param =? "n_estimators" then
        Some (GradientBoostingRegressor
                {| n_estimators := Qfloor v; random_state := random_state g;
                   learning_rate := learning_rate g; max_depth := max_depth g;
                   min_samples_leaf := min_samples_leaf g;
                   max_features := max_features g |})
      else None
  | _ => None
  end.

Fixpoint set_step (steps : Pipeline) (step param : string) (v : Q) : option Pipeline :=
  match steps with
  | [] => None
  | (n, e) :: steps' =>
      if n =? step then e' <- set_param e param v ;; Some ((n, e') :: steps')
      else steps'' <- set_step steps' step param v ;; Some ((n, e) :: steps'')
  end.

Definition params := list (string * Q).

Fixpoint set_params (steps : Pipeline) (p : params) : option Pipeline :=
  match p with
  | [] => Some steps
  | (key, v) :: p' =>
      '(step, param) <- split_param key ;;
      steps' <- set_step steps step param v ;;
      set_params steps' p'
  end.

(** *** Metric and scorer *)

(** [mean_absolute_error(y_true, y_pred)]: ValueError on arrays of
    different lengths and on empty arrays. *)
Definition mean_absolute_error (y_true y_pred : list Q) : option Q :=
  if negb (length y_true =? length y_pred)%nat then None
  else match y_true with
       | [] => None
       | _ => Some (mean (map (fun p => Qabs (snd p - fst p)) (combine y_true y_pred)))
       end.

(** The scorer ['neg_mean_absolute_error']: greater is better. *)
Definition neg_mean_absolute_error (est : list fitted) (X : matrix) (y : list Q)
  : option Q :=
  y_pred <- Pipeline_predict est X ;;
  mae <- mean_absolute_error y y_pred ;;
  Some (- mae).

(** *** Cross-validation splitters *)

(** [KFold(n_splits=k)] without shuffling: [k] consecutive test blocks, the
    first [n mod k] of them one longer; the training indices of a fold are
    all the others. *)
Definition fold_sizes (k n : nat) : list nat :=
  map (fun i => (n / k + (if (i <? n mod k)%nat then 1 else 0))%nat) (seq 0 k).

Fixpoint KFold_from (n start : nat) (sizes : list nat) : list (list nat * list nat) :=
  match sizes with
  | [] => []
  | s :: sizes' =>
      (seq 0 start ++ seq (start + s) (n - (start + s)), seq start s)
        :: KFold_from n (start + s) sizes'
  end.

Definition KFold_split (k n : nat) : option (list (list nat * list nat)) :=
  if (n <? k)%nat then None else Some (KFold_from n 0 (fold_sizes k n)).

(** [check_random_state(seed)]: an int seeds a fresh generator; [None] is
    numpy's global generator, which the draws then advance. *)
Definition check_random_state (seed : option Z) (global : RandomState) : RandomState :=
  match seed with Some s => RandomState_seed s | None => global end.

Definition release (seed : option Z) (global rng' : RandomState) : RandomState :=
  match seed with Some _ => global | None => rng' end.

(** [train_test_split(data, test_size=test_size, random_state=seed)]:
    one ShuffleSplit draw; the first [n_test] entries of the permutation are
    the held-out rows, the rest the training rows.  The second component is
    the global generator after the call. *)
Definition train_test_split (data : DataFrame) (test_size : Q) (seed : option Z)
           (global : RandomState)
  : option (DataFrame * DataFrame) * RandomState :=
  let n_samples := len data in
  let n_test := Z.to_nat (Qceiling (test_size * inject_Z (Z.of_nat n_samples))) in
  let n_train := (n_samples - n_test)%nat in
  let rng := check_random_state seed global in
  let (permutation, rng') := rs_permutation rng n_samples in
  let ind_test := firstn n_test permutation in
  let ind_train := firstn n_train (skipn n_test permutation) in
  (train <- iloc data ind_train ;; test <- iloc data ind_test ;; Some (train, test),
   release seed global rng').

(** *** Hyper-parameter search *)

Record SearchCV := {
  candidates_ : list params;              (* cv_results_['params'] *)
  mean_test_score : list Q;               (* cv_results_['mean_test_score'] *)
  std_test_score : list Q;                (* cv_results_['std_test_score'] *)
  best_index_ : nat;
  best_params_ : params;
  best_score_ : Q;
  best_estimator_ : list fitted
}.

(** [_fit_and_score]: fit a clone of the pipeline with the candidate's
    parameters on the training rows of the fold, score it on the test rows. *)
Definition fit_fold (estimator : Pipeline) (X : matrix) (y : list Q)
           (p : params) (train : list nat) : option (list fitted) :=
  est <- set_params estimator p ;;
  X_train <- take train X ;; y_train <- take train y ;;
  Pipeline_fit est X_train y_train.

Definition fit_and_score (estimator : Pipeline) (X : matrix) (y : list Q)
           (p : params) (fold : list nat * list nat) : option (Q * Q) :=
  let (train, test) := fold in
  f <- fit_fold estimator X y p train ;;
  X_test <- take test X ;; y_test <- take test y ;;
  score <- neg_mean_absolute_error f X_test y_test ;;
  Some (score, inject_Z (Z.of_nat (length test))).

(** The statistics of one candidate ([iid=True]: folds weigh by their size). *)
Definition test_score_stats (out : list (Q * Q)) : Q * Q :=
  let scores := map fst out in
  let weights := map snd out in
  let m := average scores weights in
  (m, sqrt (average (map (fun s => (s - m) * (s - m)) scores) weights)).

(** [BaseSearchCV.fit(X, y)] with [cv=5], [refit=True]. *)
Definition SearchCV_fit (estimator : Pipeline) (candidates : list params)
           (X : matrix) (y : list Q) : option SearchCV :=
  if negb (length X =? length y)%nat then None else
  folds <- KFold_split 5 (length X) ;;
  out <- mapM (fun p => mapM (fit_and_score estimator X y p) folds) candidates ;;
  let stats := map test_score_stats out in
  best <- argmax (map fst stats) ;;
  best_params <- nth_error candidates best ;;
  best_score <- nth_error (map fst stats) best ;;
  est <- set_params estimator best_params ;;
  best_estimator <- Pipeline_fit est X y ;;
  Some {| candidates_ := candidates;
          mean_test_score := map fst stats;
          std_test_score := map snd stats;
          best_index_ := best;
          best_params_ := best_params;
          best_score_ := best_score;
          best_estimator_ := best_estimator |}.

(** [search.score(X, y)]: the scorer on the refit best estimator. *)
Definition SearchCV_score (gs : SearchCV) (X : matrix) (y : list Q) : option Q :=
  neg_mean_absolute_error (best_estimator_ gs) X y.

(** [ParameterGrid(grid)]: the product of the value lists, the last key
    varying fastest. *)
Fixpoint ParameterGrid (grid : list (string * list Q)) : list params :=
  match grid with
  | [] => [[]]
  | (key, vals) :: grid' =>
      flat_map (fun v => map (cons (key, v)) (ParameterGrid grid')) vals
  end.

Definition GridSearchCV_fit (estimator : Pipeline) (grid : list (string * list Q))
  : matrix -> list Q -> option SearchCV :=
  SearchCV_fit estimator (ParameterGrid grid).

(** A search dimension of the randomized search: a list to pick from, or a
    frozen [sp_randint(low, high)]. *)
Inductive distribution :=
| choice (vals : list Q)
| sp_randint (low high : Z).

(** [v[i]] on a Python list: a negative index counts from the end,
    IndexError out of range. *)
Definition getitem_list {A : Type} (v : list A) (i : Z) : option A :=
  let n := Z.of_nat (length v) in
  if (i <? - n)%Z || (n <=? i)%Z then None
  else nth_error v (Z.to_nat (if (i <? 0)%Z then i + n else i)).

(** One draw for one key, as [ParameterSampler] does it when some dimension
    is a distribution: [v.rvs(random_state=rnd)] or [v[rnd.randint(len(v))]]. *)
Definition sample_value (d : distribution) (rnd : RandomState)
  : option Q * RandomState :=
  match d with
  | sp_randint low high =>
      let (z, rnd') := randint_rvs low high rnd in (Some (inject_Z z), rnd')
  | choice vals =>
      let (i, rnd') := rs_randint rnd (Z.of_nat (length vals)) in
      (getitem_list vals i, rnd')
  end.

Fixpoint sample_params (items : list (string * distribution)) (rnd : RandomState)
  : option params * RandomState :=
  match items with
  | [] => (Some [], rnd)
  | (k, d) :: items' =>
      let (v, rnd1) := sample_value d rnd in
      let (p, rnd2) := sample_params items' rnd1 in
      (v' <- v ;; p' <- p ;; Some ((k, v') :: p'), rnd2)
  end.

Definition key_leb (a b : string * distribution) : bool := String.leb (fst a) (fst b).

Fixpoint sample_iter (items : list (string * distribution)) (n_iter : nat)
         (rnd : RandomState) : option (list params) * RandomState :=
  match n_iter with
  | O => (Some [], rnd)
  | S n_iter' =>
      let (p, rnd1) := sample_params items rnd in
      let (ps, rnd2) := sample_iter items n_iter' rnd1 in
      (p' <- p ;; ps' <- ps ;; Some (p' :: ps'), rnd2)
  end.

(** [ParameterSampler(param_distributions, n_iter, random_state)]: the keys
    are visited in sorted order at every iteration. *)
Definition ParameterSampler (param_distributions : list (string * distribution))
           (n_iter : nat) (seed : option Z) (global : RandomState)
  : option (list params) * RandomState :=
  let rnd := check_random_state seed global in
  let (ps, rnd') := sample_iter (sort key_leb param_distributions) n_iter rnd in
  (ps, release seed global rnd').

Definition RandomizedSearchCV_fit (estimator : Pipeline)
           (param_distributions : list (string * distribution)) (n_iter : nat)
           (seed : option Z) (X : matrix) (y : list Q) (global : RandomState)
  : option SearchCV * RandomState :=
  let (ps, global') := ParameterSampler param_distributions n_iter seed global in
  (candidates <- ps ;; SearchCV_fit estimator candidates X y, global').

(** *** The notebook *)

(** In[9] *)
Definition random_state : Z := 0.
Definition test_size : Q := 33 # 100.

(** In[16], In[17]: [pipeline] and [grid] of the ridge searches (In[26]
    binds the same values again before the third search). *)
Definition ridge_pipeline : Pipeline :=
  [("imputer", Imputer); ("scaler", StandardScaler); ("rgs", Ridge 1)].
Definition alpha_range : list Q :=
  [10; 1; 1 # 10; 1 # 100; 1 # 1000; 1 # 10000; 0].
Definition ridge_grid : list (string * list Q) := [("rgs__alpha", alpha_range)].

(** In[19], In[20]: [pipeline] and [grid] of the gradient-boosting search. *)
Definition gb_pipeline : Pipeline :=
  [("imputer", Imputer);
   ("rgs", GradientBoostingRegressor
             {| n_estimators := 3000; Sklearn.random_state := Some random_state;
                learning_rate := 1 # 10; max_depth := 3; min_samples_leaf := 1;
                max_features := None |})].
Definition learning_rate_vals : list Q := [1 # 10; 5 # 100; 2 # 100; 1 # 100].
Definition max_depth_dist : distribution := sp_randint 4 6.
Definition min_samples_leaf_dist : distribution := sp_randint 3 17.
Definition max_features_vals : list Q := [1; 3 # 10; 1 # 10].
Definition gb_grid : list (string * distribution) :=
  [("rgs__learning_rate", choice learning_rate_vals);
   ("rgs__max_depth", max_depth_dist);
   ("rgs__min_samples_leaf", min_samples_leaf_dist);
   ("rgs__max_features", choice max_features_vals)].
Definition n_points : nat := 20.

(** [df.drop(['price'], axis=1)] and [df.price], as the estimators see them. *)
Definition features (df : DataFrame) : option matrix :=
  X <- drop df ["price"] ;; as_matrix X.
Definition target (df : DataFrame) : option (list Q) :=
  s <- getitem df "price" ;; as_target s.

(** One row of [performances]. *)
Record performance := { Experiment : string; MAE_mean : Q; MAE_std : Q }.

(** The body of the loop of In[28]. *)
Definition performance_of (r : string * SearchCV) : option performance :=
  std_score <- hd_error (compress (map (fun m => Qeq_bool m (best_score_ (snd r)))
                                       (mean_test_score (snd r)))
                                  (std_test_score (snd r))) ;;
  let mean_score := - best_score_ (snd r) in
  Some {| Experiment := fst r; MAE_mean := mean_score; MAE_std := std_score |}.

Fixpoint append_performances (performances : list performance)
         (gs_results : list (string * SearchCV)) : option (list performance) :=
  match gs_results with
  | [] => Some performances
  | r :: gs_results' =>
      row <- performance_of r ;;
      append_performances (performances ++ [row]) gs_results'
  end.

(** [performances.sort_values(by='MAE mean')] *)
Definition sort_values (performances : list performance) : list performance :=
  sort (fun a b => Qle_bool (MAE_mean a) (MAE_mean b)) performances.

(** The expression printed by In[30]. *)
Definition held_out_MAE (gs : SearchCV) (te : DataFrame) : option Q :=
  X <- features te ;; y <- target te ;;
  score <- SearchCV_score gs X y ;;
  Some (- score).

(** What the session holds when the last cell has run.  [tr] is bound three
    times; the three values are kept apart here. *)
Record session := {
  data : DataFrame;            (* In[12] *)
  tr_all : DataFrame;          (* tr of In[13] *)
  te_all : DataFrame;          (* te of In[13] *)
  tr_num : DataFrame;          (* tr of In[14] *)
  ridge_gs : SearchCV;
  gb_gs : SearchCV;
  data_cat : DataFrame;
  tr : DataFrame;              (* tr of In[25] *)
  te : DataFrame;              (* te of In[25] *)
  ridge_cat_gs : SearchCV;
  performances : list performance;
  Out_29 : list performance;   (* the table shown by In[29] *)
  test_MAE : Q;                (* the number printed by In[30] *)
  global_rng : RandomState
}.

(** The cells in order, from the frame that [read_csv] returned. *)
Definition notebook (csv : DataFrame) (global : RandomState) : option session :=
  (* In[12] *)
  data <- dropna csv ["price"] ;;
  (* In[13] *)
  let (split, global) := train_test_split data test_size (Some random_state) global in
  '(tr, te) <- split ;;
  let tr_all := tr in
  let te_all := te in
  (* In[14] *)
  let tr := select_dtypes tr [int64; float64] in
  let tr_num := tr in
  (* In[16]-In[18] *)
  let pipeline := ridge_pipeline in
  let grid := ridge_grid in
  X <- features tr ;; y <- target tr ;;
  ridge_gs <- GridSearchCV_fit pipeline grid X y ;;
  (* In[19]-In[21] *)
  let pipeline := gb_pipeline in
  let grid := gb_grid in
  X <- features tr ;; y <- target tr ;;
  let (gb_gs, global) :=
    RandomizedSearchCV_fit pipeline grid n_points (Some random_state) X y global in
  gb_gs <- gb_gs ;;
  (* In[22] *)
  let data_cat := get_dummies data in
  (* In[25] *)
  let (split, global) :=
    train_test_split data_cat test_size (Some random_state) global in
  '(tr, te) <- split ;;
  (* In[26], In[27] *)
  let pipeline := ridge_pipeline in
  let grid := ridge_grid in
  X <- features tr ;; y <- target tr ;;
  ridge_cat_gs <- GridSearchCV_fit pipeline grid X y ;;
  (* In[28] *)
  let gs_results :=
    [("Ridge num", ridge_gs); ("Gradient boosting", gb_gs); ("Ridge cat", ridge_cat_gs)] in
  performances <- append_performances [] gs_results ;;
  (* In[29] *)
  let shown := sort_values performances in
  (* In[30] *)
  mae <- held_out_MAE ridge_cat_gs te ;;
  Some {| data := data; tr_all := tr_all; te_all := te_all; tr_num := tr_num;
          ridge_gs := ridge_gs; gb_gs := gb_gs; data_cat := data_cat;
          tr := tr; te := te; ridge_cat_gs := ridge_cat_gs;
          performances := performances; Out_29 := shown;
          test_MAE := mae; global_rng := global |}.

(** *** Notions the statements below are phrased with *)

(** The row labels of the two partitions of a split. *)
Definition partition_labels (split : option (DataFrame * DataFrame))
  : option (list Z * list Z) :=
  '(train, test) <- split ;; Some (index train, index test).

(** The feature matrix with the entry of row [i], column [j] replaced. *)
Fixpoint update {A : Type} (l : list A) (i : nat) (f : A -> A) : list A :=
  match l, i with
  | [], _ => []
  | x :: l', O => f x :: l'
  | x :: l', S i' => x :: update l' i' f
  end.

Definition perturb (X : matrix) (i j : nat) (v : option Q) : matrix :=
  update X i (fun r => update r j (fun _ => v)).

(** The mean cross-validated MAE of one candidate: the scorer is the negated
    MAE, so this is the negated [mean_test_score] of the candidate. *)
Definition cross_val_MAE (estimator : Pipeline) (X : matrix) (y : list Q)
           (p : params) : option Q :=
  folds <- KFold_split 5 (length X) ;;
  out <- mapM (fit_and_score estimator X y p) folds ;;
  Some (- fst (test_score_stats out)).




(** No row of the frame has a missing price: a column named [price] has
    no NaN entry. *)
Definition no_missing_price (df : DataFrame) : Prop :=
  forall p, In p (columns df) -> name p = "price" ->
            Forall (fun b => b = false) (isna (values p)).

(** [X] and [y] are the arguments [df.drop(['price'], axis=1)] and
    [df.price] of a fit or score call on [df]: [X] is made of the columns
    of [df] other than [price], [y] of the column [price]. *)
Definition supervised (df : DataFrame) (X : matrix) (y : list Q) : Prop :=
  exists Xdf p,
    drop df ["price"] = Some Xdf
    /\ columns Xdf = filter (fun c => negb (name c =? "price")) (columns df)
    /\ ~ In "price" (column_names Xdf)
    /\ as_matrix Xdf = Some X
    /\ getitem df "price" = Some p
    /\ as_target p = Some y.


(** *** The inspection cells *)

(** [s.isna().sum()] *)
Definition isna_sum (a : array) : nat := length (filter (fun b => b) (isna a)).

(** In[11]: [data.price.isna().sum()] *)
Definition missing_price (df : DataFrame) : option nat :=
  s <- getitem df "price" ;; Some (isna_sum (values s)).

(** In[15]: [tr.apply(lambda c: c.isnull().sum(), axis=0)] *)
Definition null_counts (df : DataFrame) : list (string * nat) :=
  map (fun s => (name s, isna_sum (values s))) (columns df).

(** [df[labels]]: for each label in turn, the columns that carry it. *)
Definition getitem_list_of_labels (df : DataFrame) (labels : list string) : DataFrame :=
  {| index := index df;
     columns := flat_map (fun l => filter (fun s => name s =? l) (columns df)) labels |}.

Definition array_head (n : nat) (a : array) : array :=
  match a with
  | Int64 v => Int64 (firstn n v)
  | Float64 v => Float64 (firstn n v)
  | Object v => Object (firstn n v)
  | UInt8 v => UInt8 (firstn n v)
  end.

(** [df.head(n)] *)
Definition head (df : DataFrame) (n : nat) : DataFrame :=
  {| index := firstn n (index df);
     columns := map (fun s => {| name := name s; values := array_head n (values s) |})
                    (columns df) |}.

(** In[24]:
    [data_cat[[col for col in data_cat if col.startswith(prefix)]].head(8)] *)
Definition show_indicators (data_cat : DataFrame) (prefix : string) : DataFrame :=
  head (getitem_list_of_labels data_cat
          (filter (String.prefix prefix) (column_names data_cat))) 8.

(** ** Facts about the helpers *)

Lemma mapM_length {A B : Type} (f : A -> option B) (l : list A) (l' : list B) :
  mapM f l = Some l' -> length l' = length l.
Proof.
  revert l'; induction l as [|a l IH]; simpl; intros l' H.
  - now inversion H.
  - destruct (f a); [|discriminate].
    destruct (mapM f l); [|discriminate].
    inversion H; subst; simpl; f_equal; now apply IH.
Qed.

Lemma mapM_In {A B : Type} (f : A -> option B) (l : list A) (l' : list B) :
  mapM f l = Some l' -> forall b, In b l' -> exists a, In a l /\ f a = Some b.
Proof.
  revert l'; induction l as [|a l IH]; simpl; intros l' H b Hb.
  - inversion H; subst; contradiction.
  - destruct (f a) as [b0|] eqn:Ea; [|discriminate].
    destruct (mapM f l) as [bs|]; [|discriminate].
    inversion H; subst; destruct Hb as [<-|Hb].
    + exists a; auto.
    + destruct (IH bs eq_refl b Hb) as [a' [? ?]]; exists a'; auto.
Qed.

Lemma mapM_ext_in {A B : Type} (f g : A -> option B) (l : list A) :
  (forall a, In a l -> f a = g a) -> mapM f l = mapM g l.
Proof.
  induction l as [|a l IH]; simpl; intros H; [reflexivity|].
  rewrite (H a) by auto. rewrite IH by auto. reflexivity.
Qed.

Lemma mapM_total {A B : Type} (f : A -> option B) (l : list A) :
  (forall a, In a l -> exists b, f a = Some b) -> exists l', mapM f l = Some l'.
Proof.
  induction l as [|a l IH]; simpl; intros H; [eauto|].
  destruct (H a) as [b ->]; auto.
  destruct IH as [l' ->]; eauto.
Qed.


Lemma take_In {A : Type} (idx : list nat) (a l : list A) :
  take idx a = Some l -> forall x, In x l -> In x a.
Proof.
  intros H x Hx. destruct (mapM_In _ _ _ H x Hx) as [i [_ Hi]].
  eapply nth_error_In; eauto.
Qed.

Lemma take_total {A : Type} (idx : list nat) (a : list A) :
  Forall (fun i => (i < length a)%nat) idx -> exists l, take idx a = Some l.
Proof.
  intros H. apply mapM_total. intros i Hi.
  rewrite Forall_forall in H. specialize (H i Hi).
  destruct (nth_error a i) eqn:E; eauto.
  apply nth_error_None in E. lia.
Qed.

Lemma take_bound {A : Type} (idx : list nat) (a l : list A) :
  take idx a = Some l -> Forall (fun i => (i < length a)%nat) idx.
Proof.
  unfold take. revert l. induction idx as [|i idx IH]; simpl; intros l H.
  - constructor.
  - destruct (nth_error a i) eqn:E; [|discriminate].
    destruct (mapM (nth_error a) idx) eqn:E'; [|discriminate].
    constructor; [|eauto].
    apply nth_error_Some. congruence.
Qed.

(** Whether a positional selection succeeds depends on the length only. *)
Lemma take_same_length {A B : Type} (idx : list nat) (a : list A) (b : list B) l :
  length a = length b -> take idx a = Some l -> exists l', take idx b = Some l'.
Proof.
  intros Hlen H. apply take_total. rewrite <- Hlen. eapply take_bound; eauto.
Qed.

Lemma array_take_total idx a l (v : array) :
  take idx a = Some l -> size v = length (A:=Z) a -> exists v', array_take idx v = Some v'.
Proof.
  intros H Hs.
  destruct v as [v|v|v|v]; simpl in *;
    (destruct (take_same_length idx a v l (eq_sym Hs) H) as [v' ->]; eauto).
Qed.

(** On a well-formed frame the row labels that [iloc] returns are the
    selected entries of the index, and [iloc] fails only if they do. *)
Lemma iloc_index df idx :
  wf df -> option_map index (iloc df idx) = take idx (index df).
Proof.
  intros Hwf. unfold iloc.
  destruct (take idx (index df)) as [ix|] eqn:E; [|reflexivity].
  destruct (mapM_total
              (fun s => match array_take idx (values s) with
                        | Some v => Some {| name := name s; values := v |}
                        | None => None
                        end) (columns df)) as [cs ->]; [|reflexivity].
  intros s Hs. unfold wf in Hwf. rewrite Forall_forall in Hwf.
  destruct (array_take_total idx (index df) ix (values s) E (Hwf s Hs)) as [v' ->].
  eauto.
Qed.

Lemma wf_get_dummies df : wf df -> wf (get_dummies df).
Proof.
  unfold wf, get_dummies, len; simpl. intros H.
  apply Forall_app; split.
  - apply Forall_forall. intros s Hs. apply filter_In in Hs.
    rewrite Forall_forall in H. now apply H.
  - apply Forall_forall. intros s Hs. apply in_flat_map in Hs.
    destruct Hs as [c [Hc Hs]]. apply filter_In in Hc. destruct Hc as [Hc _].
    rewrite Forall_forall in H. specialize (H c Hc).
    unfold get_dummies_1d in Hs. destruct (values c) as [v|v|v|v]; try contradiction.
    apply in_map_iff in Hs. destruct Hs as [lv [<- _]]. simpl in *.
    now rewrite length_map.
Qed.

Lemma split_labels df a b :
  wf df ->
  partition_labels (train <- iloc df a ;; test <- iloc df b ;; Some (train, test))
  = (x <- take a (index df) ;; y <- take b (index df) ;; Some (x, y)).
Proof.
  intros Hwf.
  rewrite <- (iloc_index df a Hwf), <- (iloc_index df b Hwf).
  destruct (iloc df a); simpl; [|reflexivity].
  destruct (iloc df b); reflexivity.
Qed.

(** ** The claims *)

(** C1. For a fixed seed and a fixed proportion the split is reproducible:
    whatever state numpy's global generator is in, running the split again
    gives the same two partitions, and the split of the one-hot encoded
    frame puts every row label in the same partition as the split of the
    frame it was encoded from.  This holds for every seed and proportion,
    in particular for [random_state = 0] and [test_size = 0.33]. *)
Theorem train_test_split_reproducible data t seed g1 g2 :
  wf data ->
  fst (train_test_split data t (Some seed) g1)
  = fst (train_test_split data t (Some seed) g2)
  /\ partition_labels (fst (train_test_split (get_dummies data) t (Some seed) g2))
     = partition_labels (fst (train_test_split data t (Some seed) g1)).
Proof.
  intros Hwf. unfold train_test_split. simpl check_random_state.
  change (len (get_dummies data)) with (len data).
  destruct (rs_permutation (RandomState_seed seed) (len data)) as [permutation rng'].
  simpl fst. split; [reflexivity|].
  rewrite (split_labels _ _ _ (wf_get_dummies _ Hwf)), (split_labels _ _ _ Hwf).
  reflexivity.
Qed.

Lemma nth_error_update_other {A : Type} (l : list A) (i j : nat) (f : A -> A) :
  i <> j -> nth_error (update l i f) j = nth_error l j.
Proof.
  revert i j; induction l as [|x l IH]; intros [|i] [|j] H; simpl; auto; try congruence.
Qed.

Lemma length_update {A : Type} (l : list A) (i : nat) (f : A -> A) :
  length (update l i f) = length l.
Proof.
  revert i; induction l as [|x l IH]; intros [|i]; simpl; auto.
Qed.

Lemma take_update {A : Type} (idx : list nat) (l : list A) (i : nat) (f : A -> A) :
  ~ In i idx -> take idx (update l i f) = take idx l.
Proof.
  intros H. apply mapM_ext_in. intros j Hj.
  apply nth_error_update_other. intros ->. contradiction.
Qed.

(** The training and the test indices of a fold are disjoint. *)
Lemma KFold_from_disjoint n sizes : forall start train test,
  In (train, test) (KFold_from n start sizes) ->
  forall i, In i test -> ~ In i train.
Proof.
  induction sizes as [|s sizes IH]; simpl; intros start train test H i Hi Hi'.
  - contradiction.
  - destruct H as [H|H].
    + inversion H; subst; clear H.
      apply in_seq in Hi. apply in_app_or in Hi'.
      destruct Hi' as [Hi'|Hi']; apply in_seq in Hi'; lia.
    + eapply IH; eauto.
Qed.

Lemma KFold_split_disjoint k n folds train test :
  KFold_split k n = Some folds -> In (train, test) folds ->
  forall i, In i test -> ~ In i train.
Proof.
  unfold KFold_split. destruct (n <? k)%nat; [discriminate|].
  intros Hfolds Hfold.
  assert (E : folds = KFold_from n 0 (fold_sizes k n)) by congruence.
  rewrite E in Hfold. exact (KFold_from_disjoint _ _ _ _ _ Hfold).
Qed.

(** C2. In the 5-fold search the pipeline of a fold is fitted on the
    training rows of that fold only: replacing any feature value of a
    held-out row of the fold leaves the folds as they are and leaves every
    fitted step of the fold's pipeline -- the imputer's medians, the
    scaler's means and standard deviations, the regressor -- unchanged, so
    the statistics applied to the held-out row do not depend on it. *)
Theorem fold_statistics_ignore_held_out estimator X y p folds train test i j v :
  KFold_split 5 (length X) = Some folds ->
  In (train, test) folds ->
  In i test ->
  KFold_split 5 (length (perturb X i j v)) = Some folds
  /\ fit_fold estimator (perturb X i j v) y p train = fit_fold estimator X y p train.
Proof.
  intros Hfolds Hfold Hi. unfold perturb. rewrite length_update. split; [assumption|].
  unfold fit_fold. rewrite take_update; [reflexivity|].
  eapply KFold_split_disjoint; eauto.
Qed.



(** [argmax] returns a position of a largest entry. *)
Lemma argmax_from_spec l : forall pre best top,
  nth_error pre best = Some top ->
  (forall x, In x pre -> x <= top) ->
  exists top', nth_error (pre ++ l) (argmax_from (length pre) best top l) = Some top'
               /\ forall x, In x (pre ++ l) -> x <= top'.
Proof.
  induction l as [|x l IH]; simpl; intros pre best top Hbest Hle.
  - rewrite app_nil_r. eauto.
  - assert (Hlen : S (length pre) = length (pre ++ [x])) by (rewrite length_app; simpl; lia).
    replace (pre ++ x :: l) with ((pre ++ [x]) ++ l) by (rewrite <- app_assoc; reflexivity).
    destruct (Qle_bool x top) eqn:E; rewrite Hlen; apply IH.
    + rewrite nth_error_app1; [assumption|]. apply nth_error_Some. congruence.
    + intros z Hz. apply in_app_or in Hz. destruct Hz as [Hz|[<-|[]]]; auto.
      now apply Qle_bool_iff.
    + rewrite nth_error_app2 by lia. now rewrite Nat.sub_diag.
    + intros z Hz. apply in_app_or in Hz. destruct Hz as [Hz|[<-|[]]].
      * apply Qle_trans with top; auto.
        apply Qlt_le_weak, Qnot_le_lt. intros Hc. apply Qle_bool_iff in Hc. congruence.
      * apply Qle_refl.
Qed.

Lemma argmax_spec l i :
  argmax l = Some i ->
  exists top, nth_error l i = Some top /\ forall x, In x l -> x <= top.
Proof.
  destruct l as [|x l]; simpl; [discriminate|]. intros [= <-].
  apply (argmax_from_spec l [x] 0%nat x); [reflexivity|].
  intros z [<-|[]]. apply Qle_refl.
Qed.

(** What a successful search has computed. *)
Lemma SearchCV_fit_inv estimator candidates X y gs :
  SearchCV_fit estimator candidates X y = Some gs ->
  exists folds out est,
    KFold_split 5 (length X) = Some folds
    /\ mapM (fun p => mapM (fit_and_score estimator X y p) folds) candidates = Some out
    /\ candidates_ gs = candidates
    /\ mean_test_score gs = map (fun o => fst (test_score_stats o)) out
    /\ std_test_score gs = map (fun o => snd (test_score_stats o)) out
    /\ argmax (mean_test_score gs) = Some (best_index_ gs)
    /\ nth_error candidates (best_index_ gs) = Some (best_params_ gs)
    /\ nth_error (mean_test_score gs) (best_index_ gs) = Some (best_score_ gs)
    /\ set_params estimator (best_params_ gs) = Some est
    /\ Pipeline_fit est X y = Some (best_estimator_ gs).
Proof.
  unfold SearchCV_fit.
  destruct (negb (length X =? length y)%nat); [discriminate|].
  destruct (KFold_split 5 (length X)) as [folds|]; [|discriminate].
  destruct (mapM _ candidates) as [out|] eqn:Eout; [|discriminate].
  rewrite !map_map.
  destruct (argmax _) as [best|] eqn:Ebest; [|discriminate].
  destruct (nth_error candidates best) as [bp|] eqn:Ebp; [|discriminate].
  destruct (nth_error (map _ out) best) as [bs|] eqn:Ebs; [|discriminate].
  destruct (set_params estimator bp) as [est|] eqn:Eest; [|discriminate].
  destruct (Pipeline_fit est X y) as [be|] eqn:Ebe; [|discriminate].
  intros [= <-]. simpl. exists folds, out, est. rewrite ?map_map. tauto.
Qed.


Lemma insert_sorted_perm {A : Type} (leb : A -> A -> bool) x l :
  Permutation (insert_sorted leb x l) (x :: l).
Proof.
  induction l as [|y l IH]; simpl; [reflexivity|].
  destruct (leb x y); [reflexivity|].
  rewrite IH. apply perm_swap.
Qed.

Lemma sort_perm {A : Type} (leb : A -> A -> bool) l : Permutation (sort leb l) l.
Proof.
  induction l as [|x l IH]; simpl; [reflexivity|].
  rewrite insert_sorted_perm. now constructor.
Qed.

Lemma mem_In x l : mem x l = true <-> In x l.
Proof.
  unfold mem. rewrite existsb_exists. split.
  - intros (y & Hy & E). apply String.eqb_eq in E. now subst.
  - intros H. exists x. split; [assumption|apply String.eqb_refl].
Qed.






Lemma filter_none {A : Type} (f : A -> bool) l :
  (forall a, In a l -> f a = false) -> filter f l = [].
Proof.
  induction l as [|a l IH]; simpl; intros H; [reflexivity|].
  rewrite (H a) by auto. auto.
Qed.

Lemma filter_all {A : Type} (f : A -> bool) l :
  (forall a, In a l -> f a = true) -> filter f l = l.
Proof.
  induction l as [|a l IH]; simpl; intros H; [reflexivity|].
  rewrite (H a) by auto. f_equal. auto.
Qed.





(** ** The run of the notebook, cell by cell *)

Ltac run_step H :=
  match type of H with
  | match ?e with Some _ => _ | None => _ end = Some _ =>
      let E := fresh "E" in destruct e eqn:E; [|discriminate H]
  | (let (_, _) := ?e in _) = Some _ =>
      let E := fresh "E" in destruct e eqn:E
  end.

Lemma train_test_split_inv df t seed g train test :
  fst (train_test_split df t seed g) = Some (train, test) ->
  exists ind_train ind_test,
    iloc df ind_train = Some train /\ iloc df ind_test = Some test.
Proof.
  unfold train_test_split.
  destruct (rs_permutation _ _) as [permutation rng']. simpl fst.
  intros H. repeat run_step H. injection H as <- <-. eauto.
Qed.

Lemma notebook_inv csv g s :
  notebook csv g = Some s ->
  dropna csv ["price"] = Some (data s)
  /\ fst (train_test_split (data s) test_size (Some random_state) g)
     = Some (tr_all s, te_all s)
  /\ tr_num s = select_dtypes (tr_all s) [int64; float64]
  /\ (exists X y g',
        features (tr_num s) = Some X /\ target (tr_num s) = Some y
        /\ GridSearchCV_fit ridge_pipeline ridge_grid X y = Some (ridge_gs s)
        /\ fst (RandomizedSearchCV_fit gb_pipeline gb_grid n_points (Some random_state)
                                       X y g') = Some (gb_gs s))
  /\ data_cat s = get_dummies (data s)
  /\ (exists g', fst (train_test_split (data_cat s) test_size (Some random_state) g')
                 = Some (tr s, te s))
  /\ (exists X y,
        features (tr s) = Some X /\ target (tr s) = Some y
        /\ GridSearchCV_fit ridge_pipeline ridge_grid X y = Some (ridge_cat_gs s))
  /\ append_performances []
       [("Ridge num", ridge_gs s); ("Gradient boosting", gb_gs s);
        ("Ridge cat", ridge_cat_gs s)] = Some (performances s)
  /\ Out_29 s = sort_values (performances s)
  /\ held_out_MAE (ridge_cat_gs s) (te s) = Some (test_MAE s).
Proof.
  unfold notebook. intros H.
  repeat run_step H.
  injection H as <-. simpl.
  repeat match goal with
         | E : ?f = (_, _) |- context [fst ?f] => rewrite E
         end.
  simpl. subst.
  repeat split; auto.
  - match goal with
    | E : RandomizedSearchCV_fit _ _ _ _ ?X ?y ?g' = _ |- _ =>
        exists X, y, g'; rewrite E; auto
    end.
  - match goal with
    | E : train_test_split (get_dummies _) _ _ ?g' = _ |- _ =>
        exists g'; now rewrite E
    end.
  - eauto.
Qed.

Lemma compress_notna {A : Type} (v : list (option A)) : forall m,
  Forall (fun b => b = false)
         (map is_none (compress (map (fun p => fst p && negb (snd p))
                                     (combine m (map is_none v))) v)).
Proof.
  induction v as [|x v IH]; intros [|b m]; simpl; try constructor.
  destruct b, x; simpl; try constructor; auto.
Qed.

Lemma Forall_const_false {A : Type} (v : list A) :
  Forall (fun b => b = false) (map (fun _ => false) v).
Proof. induction v; simpl; constructor; auto. Qed.

Lemma array_compress_notna a m :
  Forall (fun b => b = false)
         (isna (array_compress (map (fun p => fst p && negb (snd p))
                                    (combine m (isna a))) a)).
Proof.
  destruct a as [v|v|v|v]; simpl;
    auto using Forall_const_false, compress_notna.
Qed.

Lemma find_In_name (cols : list Series) label s :
  find (fun c => name c =? label) cols = Some s -> In s cols /\ name s = label.
Proof.
  intros H. apply find_some in H. destruct H as [H E].
  apply String.eqb_eq in E. auto.
Qed.

Lemma NoDup_name_inj (cols : list Series) a b :
  NoDup (map name cols) -> In a cols -> In b cols -> name a = name b -> a = b.
Proof.
  induction cols as [|c cols IH]; simpl; intros Hnd Ha Hb E; [contradiction|].
  inversion Hnd as [|? ? Hc Hnd']; subst.
  destruct Ha as [<-|Ha], Hb as [<-|Hb]; auto.
  - exfalso. apply Hc. rewrite E. now apply in_map.
  - exfalso. apply Hc. rewrite <- E. now apply in_map.
Qed.

(** In[12]: after [dropna(subset=["price"])] no row has a missing price. *)
Lemma dropna_no_missing_price csv data :
  NoDup (column_names csv) ->
  dropna csv ["price"] = Some data -> no_missing_price data.
Proof.
  unfold dropna, notna_all, column_names. intros Hnd H.
  destruct (getitem csv "price") as [s|] eqn:Es; [|discriminate].
  injection H as <-. intros p Hp Hname. simpl in Hp.
  apply in_map_iff in Hp. destruct Hp as (c & <- & Hc). simpl in *.
  apply find_In_name in Es. destruct Es as [Hs Es].
  assert (c = s) by (apply (NoDup_name_inj (columns csv)); auto; congruence).
  subst c. apply array_compress_notna.
Qed.

Lemma array_take_notna idx a a' :
  array_take idx a = Some a' ->
  Forall (fun b => b = false) (isna a) -> Forall (fun b => b = false) (isna a').
Proof.
  destruct a as [v|v|v|v]; simpl; intros H Hna;
    destruct (take idx v) as [v'|] eqn:E; try discriminate;
    injection H as <-; simpl; auto using Forall_const_false;
    rewrite Forall_map, Forall_forall in *; intros x Hx;
    apply Hna; eapply take_In; eauto.
Qed.

Lemma iloc_no_missing_price df idx df' :
  iloc df idx = Some df' -> no_missing_price df -> no_missing_price df'.
Proof.
  unfold iloc. intros H Hdf.
  destruct (take idx (index df)); [|discriminate].
  destruct (mapM _ (columns df)) as [cs|] eqn:Ecs; [|discriminate].
  injection H as <-. intros p Hp Hname. simpl in Hp.
  destruct (mapM_In _ _ _ Ecs p Hp) as (c & Hc & Hcp).
  destruct (array_take idx (values c)) as [v|] eqn:Ev; [|discriminate].
  injection Hcp as <-. simpl in *.
  eapply array_take_notna; eauto.
Qed.

Lemma select_dtypes_no_missing_price df include :
  no_missing_price df -> no_missing_price (select_dtypes df include).
Proof.
  intros Hdf p Hp. simpl in Hp. apply filter_In in Hp. now apply Hdf.
Qed.

Lemma get_dummies_no_missing_price df :
  no_missing_price df -> no_missing_price (get_dummies df).
Proof.
  intros Hdf p Hp Hname. simpl in Hp. apply in_app_or in Hp. destruct Hp as [Hp|Hp].
  - apply filter_In in Hp. now apply Hdf.
  - apply in_flat_map in Hp. destruct Hp as (c & _ & Hp).
    unfold get_dummies_1d in Hp. destruct (values c); try contradiction.
    apply in_map_iff in Hp. destruct Hp as (l & <- & _). simpl.
    apply Forall_const_false.
Qed.

(** C5. When the notebook has run, no row with a missing price is in the
    training or in the held-out partition, neither in the first split (all
    columns, and its restriction to numeric columns) nor in the split of the
    one-hot encoded frame.  The frame that [read_csv] returns has distinct
    column names. *)
Theorem partitions_have_no_missing_price csv g s :
  NoDup (column_names csv) ->
  notebook csv g = Some s ->
  no_missing_price (tr_all s) /\ no_missing_price (te_all s)
  /\ no_missing_price (tr_num s)
  /\ no_missing_price (tr s) /\ no_missing_price (te s).
Proof.
  intros Hnd H. apply notebook_inv in H.
  destruct H as (Hdata & Hsplit & Hnum & _ & Hcat & (g' & Hsplit') & _).
  assert (Hclean := dropna_no_missing_price _ _ Hnd Hdata).
  apply train_test_split_inv in Hsplit. destruct Hsplit as (a & b & Ha & Hb).
  apply train_test_split_inv in Hsplit'. destruct Hsplit' as (a' & b' & Ha' & Hb').
  rewrite Hcat in Ha', Hb'. rewrite Hnum.
  assert (Hclean' := get_dummies_no_missing_price _ Hclean).
  repeat split;
    eauto using iloc_no_missing_price, select_dtypes_no_missing_price.
Qed.

Lemma Qsum_nonneg l : (forall x, In x l -> 0 <= x) -> 0 <= Qsum l.
Proof.
  induction l as [|x l IH]; simpl; intros H.
  - apply Qle_refl.
  - replace 0 with (0 + 0) by reflexivity. apply Qplus_le_compat; auto.
Qed.

Lemma mean_nonneg l : (forall x, In x l -> 0 <= x) -> 0 <= mean l.
Proof.
  intros H. unfold mean, Qdiv. apply Qmult_le_0_compat.
  - now apply Qsum_nonneg.
  - apply Qinv_le_0_compat. unfold Qle; simpl. lia.
Qed.

Lemma mean_absolute_error_nonneg y_true y_pred mae :
  mean_absolute_error y_true y_pred = Some mae -> 0 <= mae.
Proof.
  unfold mean_absolute_error.
  destruct (negb _); [discriminate|]. destruct y_true; [discriminate|].
  intros [= <-]. apply mean_nonneg. intros x Hx.
  apply in_map_iff in Hx. destruct Hx as (p & Hp & _).
  rewrite <- Hp. exact (Qabs_nonneg (snd p - fst p)).
Qed.

(** No fitted pipeline predicts on an empty matrix. *)
Lemma Pipeline_predict_empty fs : Pipeline_predict fs [] = None.
Proof.
  destruct fs as [|f fs]; [reflexivity|].
  destruct f, fs; reflexivity.
Qed.

Lemma features_empty te X : len te = 0%nat -> features te = Some X -> X = [].
Proof.
  unfold features, drop, as_matrix. intros Hlen H.
  destruct (forallb _ _); [|discriminate].
  destruct (mapM _ _); [|discriminate].
  unfold len in *. simpl in H. rewrite Hlen in H. now injection H as <-.
Qed.

(** C6. The held-out MAE that In[30] prints is never negative, and on an
    empty held-out partition the evaluation raises instead of printing a
    number (in particular it does not print 0). *)
Theorem held_out_MAE_nonnegative_or_undefined gs te :
  (forall mae, held_out_MAE gs te = Some mae -> 0 <= mae)
  /\ (len te = 0%nat -> held_out_MAE gs te = None).
Proof.
  unfold held_out_MAE, SearchCV_score, neg_mean_absolute_error. split.
  - intros mae H.
    destruct (features te) as [X|]; [|discriminate].
    destruct (target te) as [y|]; [|discriminate].
    destruct (Pipeline_predict _ X) as [y_pred|]; [|discriminate].
    destruct (mean_absolute_error y y_pred) as [m|] eqn:Em; [|discriminate].
    injection H as <-. rewrite Qopp_involutive.
    eapply mean_absolute_error_nonneg; eauto.
  - intros Hlen.
    destruct (features te) as [X|] eqn:EX; [|reflexivity].
    rewrite (features_empty te X Hlen EX).
    destruct (target te) as [y|]; [|reflexivity].
    now rewrite Pipeline_predict_empty.
Qed.

Section SortSorted.
Context {A : Type} (leb : A -> A -> bool) (R : A -> A -> Prop).
Hypothesis leb_true : forall a b, leb a b = true -> R a b.
Hypothesis leb_false : forall a b, leb a b = false -> R b a.
Hypothesis R_trans : forall a b c, R a b -> R b c -> R a c.

Lemma insert_sorted_sorted x l :
  StronglySorted R l -> StronglySorted R (insert_sorted leb x l).
Proof.
  induction 1 as [|y l Hl IH Hy]; simpl.
  - constructor; constructor.
  - destruct (leb x y) eqn:E.
    + constructor; [now constructor|]. constructor; [auto|].
      rewrite Forall_forall in *. eauto.
    + constructor; [assumption|].
      eapply Permutation_Forall; [apply Permutation_sym, insert_sorted_perm|].
      constructor; auto.
Qed.

Lemma sort_sorted l : StronglySorted R (sort leb l).
Proof.
  induction l as [|x l IH]; simpl; [constructor|].
  now apply insert_sorted_sorted.
Qed.
End SortSorted.

Lemma performance_of_inv r row :
  performance_of r = Some row ->
  Experiment row = fst r /\ MAE_mean row = - best_score_ (snd r).
Proof.
  unfold performance_of. destruct (hd_error _); [|discriminate].
  intros [= <-]. auto.
Qed.

Lemma select_dtypes_numeric df c :
  In c (columns (select_dtypes df [int64; float64])) ->
  dtype_of (values c) = int64 \/ dtype_of (values c) = float64.
Proof.
  simpl. intros H. apply filter_In in H. destruct H as [_ H].
  destruct (dtype_of (values c)); simpl in H; auto; discriminate.
Qed.

(** C7. When the notebook has run, the comparison holds exactly three rows,
    in this order: the ridge search on the numeric columns ("Ridge num"),
    the gradient-boosting search on the numeric columns ("Gradient
    boosting") and the ridge search on the numeric and one-hot encoded
    columns ("Ridge cat"), each with the mean cross-validated MAE of its
    search; the table displayed by In[29] has the same three rows in
    ascending order of that mean. *)
Theorem performances_three_rows_sorted csv g s :
  notebook csv g = Some s ->
  map Experiment (performances s) = ["Ridge num"; "Gradient boosting"; "Ridge cat"]
  /\ map MAE_mean (performances s)
     = [- best_score_ (ridge_gs s); - best_score_ (gb_gs s); - best_score_ (ridge_cat_gs s)]
  /\ (forall c, In c (columns (tr_num s)) ->
                dtype_of (values c) = int64 \/ dtype_of (values c) = float64)
  /\ (exists X y g',
        features (tr_num s) = Some X /\ target (tr_num s) = Some y
        /\ GridSearchCV_fit ridge_pipeline ridge_grid X y = Some (ridge_gs s)
        /\ fst (RandomizedSearchCV_fit gb_pipeline gb_grid n_points (Some random_state)
                                       X y g') = Some (gb_gs s))
  /\ (exists g' X y,
        fst (train_test_split (get_dummies (data s)) test_size (Some random_state) g')
        = Some (tr s, te s)
        /\ features (tr s) = Some X /\ target (tr s) = Some y
        /\ GridSearchCV_fit ridge_pipeline ridge_grid X y = Some (ridge_cat_gs s))
  /\ Permutation (Out_29 s) (performances s)
  /\ StronglySorted (fun a b => MAE_mean a <= MAE_mean b) (Out_29 s).
Proof.
  intros H. apply notebook_inv in H.
  destruct H as (_ & _ & Hnum & Hfirst & Hcat & (g' & Hsplit) & (X & y & Hthird)
                 & Hperf & Hout & _).
  simpl in Hperf.
  destruct (performance_of ("Ridge num", ridge_gs s)) as [r1|] eqn:E1; [|discriminate].
  destruct (performance_of ("Gradient boosting", gb_gs s)) as [r2|] eqn:E2; [|discriminate].
  destruct (performance_of ("Ridge cat", ridge_cat_gs s)) as [r3|] eqn:E3; [|discriminate].
  injection Hperf as Hperf.
  apply performance_of_inv in E1, E2, E3. destruct E1 as [N1 M1], E2 as [N2 M2], E3 as [N3 M3].
  simpl in *. rewrite <- Hperf. simpl. rewrite N1, N2, N3, M1, M2, M3.
  split; [reflexivity|]. split; [reflexivity|].
  split; [rewrite Hnum; apply select_dtypes_numeric|].
  split; [assumption|]. split; [rewrite <- Hcat; eauto|].
  rewrite Hout, <- Hperf. unfold sort_values. split.
  - apply sort_perm.
  - apply sort_sorted with (leb := fun a b => Qle_bool (MAE_mean a) (MAE_mean b)).
    + intros a b E. now apply Qle_bool_iff.
    + intros a b E. apply Qlt_le_weak, Qnot_le_lt. intros Hc.
      apply Qle_bool_iff in Hc. congruence.
    + intros a b c. apply Qle_trans.
Qed.

Lemma getitem_list_range {A : Type} (v : list A) (i : Z) :
  (0 <= i < Z.of_nat (length v))%Z -> exists x, getitem_list v i = Some x /\ In x v.
Proof.
  intros Hi. unfold getitem_list.
  replace (i <? - Z.of_nat (length v))%Z with false by (symmetry; apply Z.ltb_ge; lia).
  replace (Z.of_nat (length v) <=? i)%Z with false by (symmetry; apply Z.leb_gt; lia).
  replace (i <? 0)%Z with false by (symmetry; apply Z.ltb_ge; lia). simpl.
  destruct (nth_error v (Z.to_nat i)) as [x|] eqn:E.
  - exists x. split; [reflexivity|]. eapply nth_error_In; eauto.
  - apply nth_error_None in E. lia.
Qed.

Section Sampling.
(** The contract of the two draws. *)
Hypothesis rs_randint_range :
  forall r high, (0 < high)%Z -> (0 <= fst (rs_randint r high) < high)%Z.
Hypothesis randint_rvs_range :
  forall low high r, (low < high)%Z -> (low <= fst (randint_rvs low high r) < high)%Z.

(** What one sampled candidate of the gradient-boosting search looks like. *)
Let candidate_ok (p : params) : Prop :=
  exists lr md mf msl,
    p = [("rgs__learning_rate", lr); ("rgs__max_depth", inject_Z md);
         ("rgs__max_features", mf); ("rgs__min_samples_leaf", inject_Z msl)]
    /\ In lr learning_rate_vals /\ (4 <= md < 6)%Z
    /\ In mf max_features_vals /\ (3 <= msl < 17)%Z.

Lemma sample_value_choice vals rnd :
  vals <> [] ->
  exists x, fst (sample_value (choice vals) rnd) = Some x /\ In x vals.
Proof.
  intros Hne. unfold sample_value.
  assert (H := rs_randint_range rnd (Z.of_nat (length vals))).
  destruct (rs_randint rnd (Z.of_nat (length vals))) as [i rnd']. simpl in *.
  apply getitem_list_range, H. destruct vals; [congruence|simpl; lia].
Qed.

Lemma sample_value_randint low high rnd :
  (low < high)%Z ->
  exists z, fst (sample_value (sp_randint low high) rnd) = Some (inject_Z z)
            /\ (low <= z < high)%Z.
Proof.
  intros Hlt. unfold sample_value.
  assert (H := randint_rvs_range low high rnd Hlt).
  destruct (randint_rvs low high rnd) as [z rnd']. simpl in *. eauto.
Qed.

Lemma sample_params_gb rnd :
  exists p, fst (sample_params (sort key_leb gb_grid) rnd) = Some p /\ candidate_ok p.
Proof.
  change (sort key_leb gb_grid)
    with [("rgs__learning_rate", choice learning_rate_vals);
          ("rgs__max_depth", max_depth_dist);
          ("rgs__max_features", choice max_features_vals);
          ("rgs__min_samples_leaf", min_samples_leaf_dist)].
  unfold sample_params, max_depth_dist, min_samples_leaf_dist.
  destruct (sample_value_choice learning_rate_vals rnd) as (lr & E1 & Hlr);
    [discriminate|].
  destruct (sample_value (choice learning_rate_vals) rnd) as [v1 r1].
  simpl in E1; subst v1.
  destruct (sample_value_randint 4 6 r1) as (md & E2 & Hmd); [lia|].
  destruct (sample_value (sp_randint 4 6) r1) as [v2 r2]. simpl in E2; subst v2.
  destruct (sample_value_choice max_features_vals r2) as (mf & E3 & Hmf);
    [discriminate|].
  destruct (sample_value (choice max_features_vals) r2) as [v3 r3].
  simpl in E3; subst v3.
  destruct (sample_value_randint 3 17 r3) as (msl & E4 & Hmsl); [lia|].
  destruct (sample_value (sp_randint 3 17) r3) as [v4 r4]. simpl in E4; subst v4.
  simpl. eexists. split; [reflexivity|].
  exists lr, md, mf, msl. auto.
Qed.

Lemma sample_iter_gb n : forall rnd,
  exists ps, fst (sample_iter (sort key_leb gb_grid) n rnd) = Some ps
             /\ length ps = n /\ forall p, In p ps -> candidate_ok p.
Proof.
  induction n as [|n IH]; intros rnd; cbn [sample_iter].
  - exists []. simpl. repeat split. contradiction.
  - destruct (sample_params_gb rnd) as (p & Ep & Hp).
    destruct (sample_params (sort key_leb gb_grid) rnd) as [p' r1].
    simpl in Ep; subst p'.
    destruct (IH r1) as (ps & Eps & Hlen & Hps).
    destruct (sample_iter (sort key_leb gb_grid) n r1) as [ps' r2].
    simpl in Eps; subst ps'. simpl.
    exists (p :: ps). split; [reflexivity|]. split; [simpl; now f_equal|].
    intros q [<-|Hq]; auto.
Qed.

(** C8. The gradient-boosting search evaluates exactly 20 sampled
    candidates.  Each candidate sets four parameters: the learning rate,
    picked from the list of In[20]; the tree depth, drawn from the integer
    range [4, 6); the feature fraction, picked from its list; the minimum
    leaf size, drawn from the integer range [3, 17).  No candidate touches
    the tree count, which stays at 3000, and the pipeline the candidates
    configure has the two steps imputer and regressor, with no scaler. *)
Theorem randomized_search_candidates seed g :
  exists ps,
    fst (ParameterSampler gb_grid n_points seed g) = Some ps
    /\ length ps = 20%nat
    /\ (forall p, In p ps ->
          exists lr md mf msl,
            p = [("rgs__learning_rate", lr); ("rgs__max_depth", inject_Z md);
                 ("rgs__max_features", mf); ("rgs__min_samples_leaf", inject_Z msl)]
            /\ In lr learning_rate_vals /\ (4 <= md < 6)%Z
            /\ In mf max_features_vals /\ (3 <= msl < 17)%Z
            /\ set_params gb_pipeline p
               = Some [("imputer", Imputer);
                       ("rgs", GradientBoostingRegressor
                                 {| n_estimators := 3000;
                                    Sklearn.random_state := Some random_state;
                                    learning_rate := lr; max_depth := md;
                                    min_samples_leaf := msl;
                                    max_features := Some mf |})])
    /\ (forall X y gs,
          fst (RandomizedSearchCV_fit gb_pipeline gb_grid n_points seed X y g) = Some gs ->
          candidates_ gs = ps).
Proof.
  unfold RandomizedSearchCV_fit, ParameterSampler.
  destruct (sample_iter_gb n_points (check_random_state seed g)) as (ps & Eps & Hlen & Hps).
  destruct (sample_iter _ n_points _) as [ps' rnd']. simpl in Eps; subst ps'.
  exists ps. simpl. split; [reflexivity|]. split; [assumption|]. split.
  - intros p Hp. destruct (Hps p Hp) as (lr & md & mf & msl & -> & ? & ? & ? & ?).
    exists lr, md, mf, msl. repeat (split; [assumption || reflexivity|]).
    cbv [set_params]. change (split_param "rgs__learning_rate") with (Some ("rgs", "learning_rate")).
    change (split_param "rgs__max_depth") with (Some ("rgs", "max_depth")).
    change (split_param "rgs__max_features") with (Some ("rgs", "max_features")).
    change (split_param "rgs__min_samples_leaf") with (Some ("rgs", "min_samples_leaf")).
    cbn. rewrite !Z.div_1_r. reflexivity.
  - intros X y gs H. apply SearchCV_fit_inv in H.
    destruct H as (_ & _ & _ & _ & _ & H & _). exact H.
Qed.
End Sampling.

Lemma features_target_supervised df X y :
  features df = Some X -> target df = Some y -> supervised df X y.
Proof.
  unfold features, target, supervised, drop. intros HX Hy.
  destruct (forallb _ _); [|discriminate].
  destruct (getitem df "price") as [p|]; [|discriminate].
  eexists; exists p. split; [reflexivity|].
  split.
  { simpl. apply filter_ext. intros c. simpl. now rewrite orb_false_r. }
  split.
  { unfold column_names. simpl. intros Hin. apply in_map_iff in Hin.
    destruct Hin as (c & Hname & Hc). apply filter_In in Hc. destruct Hc as [_ Hc].
    rewrite Hname in Hc. discriminate. }
  split; [exact HX|]. split; [reflexivity|exact Hy].
Qed.

(** C9. In each of the three fits and in the final scoring call the feature
    matrix is built from the columns other than [price] -- no column named
    [price] is among the features -- and the target is the column
    [price] of the same frame. *)
Theorem price_is_target_never_feature csv g s :
  notebook csv g = Some s ->
  (exists X y, supervised (tr_num s) X y
               /\ GridSearchCV_fit ridge_pipeline ridge_grid X y = Some (ridge_gs s))
  /\ (exists X y g',
        supervised (tr_num s) X y
        /\ fst (RandomizedSearchCV_fit gb_pipeline gb_grid n_points (Some random_state)
                                       X y g') = Some (gb_gs s))
  /\ (exists X y, supervised (tr s) X y
                  /\ GridSearchCV_fit ridge_pipeline ridge_grid X y = Some (ridge_cat_gs s))
  /\ (exists X y score,
        supervised (te s) X y
        /\ SearchCV_score (ridge_cat_gs s) X y = Some score
        /\ test_MAE s = - score).
Proof.
  intros H. apply notebook_inv in H.
  destruct H as (_ & _ & _ & (X & y & g' & HX & Hy & Hridge & Hgb) & _ & _
                 & (X' & y' & HX' & Hy' & Hcat) & _ & _ & Hte).
  unfold held_out_MAE in Hte.
  destruct (features (te s)) as [Xte|] eqn:EX; [|discriminate].
  destruct (target (te s)) as [yte|] eqn:Ey; [|discriminate].
  destruct (SearchCV_score _ Xte yte) as [score|] eqn:Es; [|discriminate].
  injection Hte as Hte.
  repeat split.
  - exists X, y. auto using features_target_supervised.
  - exists X, y, g'. auto using features_target_supervised.
  - exists X', y'. auto using features_target_supervised.
  - exists Xte, yte, score. auto using features_target_supervised.
Qed.

Lemma find_filter_app {A : Type} (P f : A -> bool) l l2 c :
  find P l = Some c -> f c = true -> find P (filter f l ++ l2) = Some c.
Proof.
  induction l as [|a l IH]; simpl; [discriminate|].
  destruct (P a) eqn:EP.
  - intros [= ->] Hf. rewrite Hf. simpl. now rewrite EP.
  - intros H Hf. destruct (f a); simpl; [rewrite EP|]; auto.
Qed.

Lemma get_dummies_getitem df label c :
  getitem df label = Some c -> is_object c = false ->
  getitem (get_dummies df) label = Some c.
Proof.
  unfold getitem. simpl. intros H Hc. apply find_filter_app; [assumption|].
  now rewrite Hc.
Qed.

(** C10. One-hot encoding leaves the columns that are not categorical as
    they are: a column of the cleaned frame that is not of object dtype --
    [price] included, when it is numeric -- is found under the same label
    with the same values in the encoded frame, and the row labels are the
    same.  The encoded frame is made from the cleaned frame itself: the
    restriction to numeric columns of In[14] rebinds [tr] only. *)
Theorem get_dummies_keeps_numeric_columns csv g s label c :
  notebook csv g = Some s ->
  getitem (data s) label = Some c ->
  is_object c = false ->
  getitem (data_cat s) label = Some c
  /\ index (data_cat s) = index (data s)
  /\ dropna csv ["price"] = Some (data s)
  /\ data_cat s = get_dummies (data s)
  /\ tr_num s = select_dtypes (tr_all s) [int64; float64].
Proof.
  intros H Hc Hobj. apply notebook_inv in H.
  destruct H as (Hdata & _ & Hnum & _ & Hcat & _).
  rewrite Hcat. repeat split; auto using get_dummies_getitem.
Qed.

(** ** Further properties of the modelled code *)

Lemma getitem_None df label :
  getitem df label = None <-> ~ In label (column_names df).
Proof.
  unfold getitem, column_names. split.
  - intros H Hin. apply in_map_iff in Hin. destruct Hin as (s & Hs & Hin).
    apply (find_none _ _ H) in Hin. apply String.eqb_neq in Hin. contradiction.
  - intros H. destruct (find _ _) as [s|] eqn:E; [|reflexivity].
    apply find_In_name in E. destruct E as [Hin Hs]. exfalso. apply H.
    rewrite <- Hs. now apply in_map.
Qed.

Lemma mem_false x l : mem x l = false <-> ~ In x l.
Proof.
  rewrite <- mem_In. destruct (mem x l); split; congruence.
Qed.

(** X1. Without a column named [price] the notebook cannot start: the
    count of In[11], [dropna] of In[12], and the [drop]/[.price] arguments of
    every fit all raise, and the run as a whole fails. *)
Theorem price_column_required df g :
  ~ In "price" (column_names df) ->
  missing_price df = None
  /\ dropna df ["price"] = None
  /\ drop df ["price"] = None
  /\ features df = None
  /\ target df = None
  /\ notebook df g = None.
Proof.
  intros H. assert (Hget := proj2 (getitem_None df "price") H).
  assert (Hmem := proj2 (mem_false "price" (column_names df)) H).
  assert (Hdrop : drop df ["price"] = None).
  { unfold drop. simpl. now rewrite Hmem. }
  assert (Hna : dropna df ["price"] = None).
  { unfold dropna. simpl. now rewrite Hget. }
  unfold missing_price, features, target, notebook.
  rewrite Hget, Hdrop, Hna. repeat split; reflexivity.
Qed.

Lemma negb_mask (idx : list Z) (na : list bool) :
  length idx = length na ->
  map (fun p => fst p && negb (snd p)) (combine (map (fun _ => true) idx) na)
  = map negb na.
Proof.
  revert na. induction idx as [|i idx IH]; intros [|b na]; simpl; intros H;
    try discriminate; [reflexivity|].
  f_equal. apply IH. now injection H.
Qed.

Lemma length_compress {A : Type} (mask : list bool) : forall a : list A,
  length mask = length a ->
  length (compress mask a) = length (filter (fun b => b) mask).
Proof.
  induction mask as [|b mask IH]; intros [|x a]; simpl; intros H;
    try discriminate; [reflexivity|].
  destruct b; simpl; rewrite IH; auto.
Qed.

Lemma size_isna a : length (isna a) = size a.
Proof. destruct a; simpl; now rewrite length_map. Qed.

Lemma size_array_compress mask a :
  length mask = size a ->
  size (array_compress mask a) = length (filter (fun b => b) mask).
Proof.
  destruct a; simpl; apply length_compress.
Qed.

Lemma find_map_values (f : array -> array) (cols : list Series) label s :
  find (fun c => name c =? label) cols = Some s ->
  find (fun c => name c =? label)
       (map (fun c => {| name := name c; values := f (values c) |}) cols)
  = Some {| name := name s; values := f (values s) |}.
Proof.
  induction cols as [|c cols IH]; simpl; [discriminate|].
  destruct (name c =? label); [now intros [= ->]|assumption].
Qed.

Lemma count_negb (na : list bool) :
  (length (filter (fun b => b) (map negb na)) + length (filter (fun b => b) na)
   = length na)%nat.
Proof.
  induction na as [|b na IH]; simpl; [reflexivity|].
  destruct b; simpl; lia.
Qed.

Lemma Forall_false_count (l : list bool) :
  Forall (fun b => b = false) l <-> length (filter (fun b => b) l) = 0%nat.
Proof.
  induction l as [|b l IH]; simpl.
  - split; auto.
  - destruct b; simpl.
    + split; [intros H; inversion H; discriminate|discriminate].
    + rewrite <- IH. split; [intros H; now inversion H|now constructor].
Qed.

(** X2. The cleaning step accounts for every row: on a well-formed frame with
    a price column, [dropna] succeeds, the number of rows it keeps plus the
    number of missing prices printed by In[11] is the number of rows read,
    the cleaned frame has no missing price left and is well formed. *)
Theorem dropna_accounts_for_rows csv m :
  wf csv ->
  missing_price csv = Some m ->
  exists data,
    dropna csv ["price"] = Some data
    /\ (len data + m = len csv)%nat
    /\ missing_price data = Some 0%nat
    /\ wf data.
Proof.
  unfold missing_price, dropna, notna_all. intros Hwf Hm.
  destruct (getitem csv "price") as [p|] eqn:Ep; [|discriminate].
  injection Hm as <-.
  assert (Hp : size (values p) = len csv).
  { unfold wf in Hwf. rewrite Forall_forall in Hwf. apply Hwf.
    now apply find_In_name in Ep. }
  rewrite negb_mask by (rewrite size_isna; now symmetry).
  eexists. split; [reflexivity|].
  assert (Hmask : length (map negb (isna (values p))) = len csv)
    by now rewrite length_map, size_isna.
  split; [|split].
  - unfold len. simpl. rewrite length_compress by exact Hmask.
    unfold isna_sum. rewrite count_negb, size_isna. exact Hp.
  - unfold getitem, loc_mask. simpl.
    rewrite (find_map_values (array_compress _) _ _ _ Ep). simpl.
    f_equal. apply Forall_false_count.
    rewrite <- (negb_mask (index csv)) by (rewrite size_isna; now symmetry).
    apply array_compress_notna.
  - unfold wf, len. simpl. rewrite length_compress by exact Hmask.
    apply Forall_forall. intros c Hc. apply in_map_iff in Hc.
    destruct Hc as (c0 & <- & Hc0). simpl.
    apply size_array_compress. rewrite Hmask.
    unfold wf in Hwf. rewrite Forall_forall in Hwf. symmetry. now apply Hwf.
Qed.

Lemma compress_all_true {A : Type} (mask : list bool) : forall a : list A,
  Forall (fun b => b = true) mask -> length mask = length a -> compress mask a = a.
Proof.
  induction mask as [|b mask IH]; intros [|x a] Hall Hlen; simpl in *;
    try discriminate; [reflexivity|].
  inversion Hall; subst. f_equal. apply IH; auto.
Qed.

Lemma array_compress_all_true mask a :
  Forall (fun b => b = true) mask -> length mask = size a -> array_compress mask a = a.
Proof.
  destruct a; simpl; intros; f_equal; now apply compress_all_true.
Qed.

(** X3. Cleaning is idempotent: on a well-formed frame that has no missing
    price, [dropna(subset=["price"])] returns the frame unchanged. *)
Theorem dropna_clean_is_identity df :
  wf df -> missing_price df = Some 0%nat -> dropna df ["price"] = Some df.
Proof.
  unfold missing_price, dropna, notna_all. intros Hwf Hm.
  destruct (getitem df "price") as [p|] eqn:Ep; [|discriminate].
  injection Hm as Hm. apply Forall_false_count in Hm.
  assert (Hp : size (values p) = len df).
  { unfold wf in Hwf. rewrite Forall_forall in Hwf. apply Hwf.
    now apply find_In_name in Ep. }
  rewrite negb_mask by (rewrite size_isna; now symmetry).
  assert (Hall : Forall (fun b => b = true) (map negb (isna (values p)))).
  { rewrite Forall_map. eapply Forall_impl; [|exact Hm]. now intros b ->. }
  assert (Hlen : length (map negb (isna (values p))) = len df)
    by now rewrite length_map, size_isna.
  f_equal. unfold loc_mask. destruct df as [ix cols]. simpl in *. f_equal.
  - now apply compress_all_true.
  - rewrite <- (map_id cols) at 2. apply map_ext_in. intros [n v] Hc. simpl. f_equal.
    apply array_compress_all_true; [assumption|].
    unfold wf in Hwf. rewrite Forall_forall in Hwf. rewrite Hlen.
    symmetry. exact (Hwf _ Hc).
Qed.

Lemma mapM_None {A B : Type} (f : A -> option B) (l : list A) :
  mapM f l = None <-> exists a, In a l /\ f a = None.
Proof.
  induction l as [|a l IH]; simpl.
  - split; [discriminate|]. intros (a & [] & _).
  - destruct (f a) as [b|] eqn:Ea.
    + destruct (mapM f l) as [bs|].
      * split; [discriminate|]. intros (a' & [<-|Ha'] & E); [congruence|].
        assert (H : Some bs = None) by (apply IH; eauto). discriminate H.
      * split; [|reflexivity]. intros _.
        destruct (proj1 IH eq_refl) as (a' & Ha' & E). eauto.
    + split; [|reflexivity]. intros _. eauto.
Qed.

Lemma astype_float_None a :
  astype_float a = None <-> exists v s, a = Object v /\ In (Some s) v.
Proof.
  destruct a as [v|v|v|v]; simpl;
    try (split; [discriminate|intros (? & ? & ? & _); discriminate]).
  rewrite mapM_None. split.
  - intros ([s|] & Hin & H); [|discriminate]. eauto.
  - intros (v' & s & [= <-] & Hin). exists (Some s). auto.
Qed.

Lemma as_matrix_shape df X :
  as_matrix df = Some X ->
  length X = len df /\ Forall (fun r => length r = length (columns df)) X.
Proof.
  unfold as_matrix. destruct (mapM _ (columns df)) as [cols|] eqn:E; [|discriminate].
  intros [= <-]. rewrite length_map, length_seq. split; [reflexivity|].
  apply Forall_forall. intros r Hr. apply in_map_iff in Hr. destruct Hr as (i & <- & _).
  rewrite length_map. eapply mapM_length; eauto.
Qed.


Lemma features_target_supervised_half df X :
  features df = Some X ->
  exists Xdf,
    columns Xdf = filter (fun c => negb (name c =? "price")) (columns df)
    /\ len Xdf = len df
    /\ as_matrix Xdf = Some X.
Proof.
  unfold features, drop. intros HX.
  destruct (forallb _ _); [|discriminate].
  eexists. split; [|split; [|exact HX]]; [|reflexivity].
  simpl. apply filter_ext. intros c. simpl. now rewrite orb_false_r.
Qed.

(** X5. The feature matrix has the shape of the frame it is made from: one
    row per row of the frame, and in every row one entry per column other
    than [price]. *)
Theorem features_shape df X :
  features df = Some X ->
  length X = len df
  /\ Forall (fun r => length r
                      = length (filter (fun c => negb (name c =? "price")) (columns df))) X.
Proof.
  intros H. destruct (features_target_supervised_half df X H) as (Xdf & Hcols & Hlen & HX).
  apply as_matrix_shape in HX. rewrite <- Hcols, <- Hlen. exact HX.
Qed.

(** X6. One-hot encoding leaves no text behind: the encoded frame has no
    object column, so encoding it again changes nothing and its conversion
    to a float matrix never raises. *)
Theorem get_dummies_encodes_all_text df :
  Forall (fun c => is_object c = false) (columns (get_dummies df))
  /\ get_dummies (get_dummies df) = get_dummies df
  /\ exists M, as_matrix (get_dummies df) = Some M.
Proof.
  assert (Hno : Forall (fun c => is_object c = false) (columns (get_dummies df))).
  { simpl. apply Forall_app. split; apply Forall_forall; intros c Hc.
    - apply filter_In in Hc. destruct Hc as [_ Hc]. now apply negb_true_iff.
    - apply in_flat_map in Hc. destruct Hc as (c0 & _ & Hc).
      unfold get_dummies_1d in Hc. destruct (values c0); try contradiction.
      apply in_map_iff in Hc. destruct Hc as (l & <- & _). reflexivity. }
  split; [assumption|]. split.
  - unfold get_dummies at 1. f_equal.
    rewrite filter_all, filter_none.
    + simpl. now rewrite app_nil_r.
    + rewrite Forall_forall in Hno. exact Hno.
    + intros c Hc. rewrite Forall_forall in Hno. rewrite (Hno c Hc). reflexivity.
  - unfold as_matrix. destruct (mapM _ _) as [cols|] eqn:E; [eauto|].
    apply mapM_None in E. destruct E as (c & Hc & E).
    apply astype_float_None in E. destruct E as (v & s & Hv & _).
    rewrite Forall_forall in Hno. specialize (Hno c Hc).
    unfold is_object in Hno. rewrite Hv in Hno. discriminate.
Qed.

Lemma prefix_append p q : String.prefix p (p ++ q) = true.
Proof.
  induction p as [|a p IH]; simpl; [now destruct q|].
  destruct (Ascii.ascii_dec a a); congruence.
Qed.

Lemma get_dummies_1d_incl df s v :
  In s (columns df) -> values s = Object v ->
  incl (get_dummies_1d s) (columns (get_dummies df)).
Proof.
  intros Hs Hv c Hc. unfold get_dummies; simpl. apply in_or_app. right.
  apply in_flat_map. exists s. split; [|assumption].
  apply filter_In. split; [assumption|]. unfold is_object. now rewrite Hv.
Qed.

(** X7. The display of In[24] contains the first eight rows of every
    indicator column of the categorical column whose name is the prefix. *)
Theorem show_indicators_shows_group df s v c :
  In s (columns df) -> values s = Object v -> In c (get_dummies_1d s) ->
  In {| name := name c; values := array_head 8 (values c) |}
     (columns (show_indicators (get_dummies df) (name s)))
  /\ len (show_indicators (get_dummies df) (name s)) = Nat.min 8 (len df).
Proof.
  intros Hs Hv Hc. split.
  - assert (Hin := get_dummies_1d_incl df s v Hs Hv c Hc).
    unfold show_indicators, head, getitem_list_of_labels. cbn [columns].
    apply in_map_iff. exists c. split; [reflexivity|].
    apply in_flat_map. exists (name c). split.
    + apply filter_In. split; [now apply in_map|].
      unfold get_dummies_1d in Hc. rewrite Hv in Hc. apply in_map_iff in Hc.
      destruct Hc as (l & <- & _). simpl. apply prefix_append.
    + apply filter_In. split; [assumption|apply String.eqb_refl].
  - unfold show_indicators, head, getitem_list_of_labels, len. cbn [index].
    apply length_firstn.
Qed.







Section Shuffle.
(** The contract of [rng.permutation(n)]. *)
Hypothesis rs_permutation_spec :
  forall r n, Permutation (fst (rs_permutation r n)) (seq 0 n).

End Shuffle.

Lemma list_sum_fold_sizes a m k :
  list_sum (map (fun i => (a + (if (i <? m)%nat then 1 else 0))%nat) (seq 0 k))
  = (k * a + Nat.min m k)%nat.
Proof.
  induction k as [|k IH]; [simpl; lia|].
  rewrite seq_S, map_app, list_sum_app, IH. simpl.
  destruct (Nat.ltb_spec k m); lia.
Qed.

Lemma fold_sizes_sum k n : (0 < k)%nat -> list_sum (fold_sizes k n) = n.
Proof.
  intros Hk. unfold fold_sizes. rewrite list_sum_fold_sizes.
  assert (Hm := Nat.mod_upper_bound n k ltac:(lia)).
  assert (Hd := Nat.div_mod_eq n k). lia.
Qed.

Lemma fold_sizes_bounds k n s :
  In s (fold_sizes k n) -> (n / k <= s <= n / k + 1)%nat.
Proof.
  unfold fold_sizes. intros H. apply in_map_iff in H. destruct H as (i & <- & _).
  destruct (i <? n mod k)%nat; lia.
Qed.

Lemma KFold_from_spec n sizes : forall start,
  (start + list_sum sizes = n)%nat ->
  length (KFold_from n start sizes) = length sizes
  /\ concat (map snd (KFold_from n start sizes)) = seq start (list_sum sizes)
  /\ forall train test, In (train, test) (KFold_from n start sizes) ->
       Permutation (train ++ test) (seq 0 n) /\ In (length test) sizes.
Proof.
  induction sizes as [|s sizes IH]; intros start Hsum; simpl in *.
  - repeat split; intros; contradiction.
  - destruct (IH (start + s)%nat ltac:(lia)) as (Hlen & Hcat & Hfold).
    split; [now f_equal|]. split.
    + rewrite Hcat. symmetry. apply seq_app.
    + intros train test [H|H].
      * injection H as <- <-. rewrite length_seq. split; [|now left].
        assert (E : seq 0 n
                    = seq 0 start ++ seq start s ++ seq (start + s) (n - (start + s))).
        { rewrite <- seq_app. rewrite <- (seq_app start _ 0). f_equal. lia. }
        rewrite E, <- app_assoc. apply Permutation_app_head.
        apply Permutation_app_comm.
      * destruct (Hfold _ _ H). auto.
Qed.

(** X9. The folds of the 5-fold search partition the training rows.  For
    [k >= 2] splits of [n >= k] rows there are [k] folds; the test blocks,
    one after the other, are [0 .. n-1], so every row is held out exactly
    once; in every fold the training and the test indices together are all
    the rows; and every test block has [n / k] or [n / k + 1] rows, hence at
    least one. *)
Theorem KFold_split_partitions k n folds :
  (2 <= k)%nat ->
  KFold_split k n = Some folds ->
  length folds = k
  /\ concat (map snd folds) = seq 0 n
  /\ forall train test, In (train, test) folds ->
       Permutation (train ++ test) (seq 0 n)
       /\ (n / k <= length test <= n / k + 1)%nat
       /\ test <> [].
Proof.
  intros Hk. unfold KFold_split. destruct (Nat.ltb_spec n k) as [|Hn]; [discriminate|].
  intros [= <-].
  destruct (KFold_from_spec n (fold_sizes k n) 0%nat) as (Hlen & Hcat & Hfold).
  { rewrite fold_sizes_sum; lia. }
  split; [|split].
  - rewrite Hlen. unfold fold_sizes. now rewrite length_map, length_seq.
  - rewrite Hcat, fold_sizes_sum by lia. reflexivity.
  - intros train test H. destruct (Hfold _ _ H) as (Hp & Hs).
    apply fold_sizes_bounds in Hs. split; [assumption|]. split; [assumption|].
    assert (1 <= n / k)%nat by (apply Nat.div_le_lower_bound; lia).
    destruct test; simpl in *; [lia|discriminate].
Qed.

(** [argmax] returns the first position of the largest entry. *)
Lemma argmax_from_first l : forall pre best top,
  nth_error pre best = Some top ->
  (forall x, In x pre -> x <= top) ->
  (forall j x, (j < best)%nat -> nth_error pre j = Some x -> x < top) ->
  exists top',
    nth_error (pre ++ l) (argmax_from (length pre) best top l) = Some top'
    /\ forall j x, (j < argmax_from (length pre) best top l)%nat ->
                   nth_error (pre ++ l) j = Some x -> x < top'.
Proof.
  induction l as [|x l IH]; simpl; intros pre best top Hbest Hle Hfirst.
  - rewrite app_nil_r. eauto.
  - assert (Hb : (best < length pre)%nat) by (apply nth_error_Some; congruence).
    assert (Hlen : S (length pre) = length (pre ++ [x])) by (rewrite length_app; simpl; lia).
    replace (pre ++ x :: l) with ((pre ++ [x]) ++ l) by (rewrite <- app_assoc; reflexivity).
    destruct (Qle_bool x top) eqn:E; rewrite Hlen; apply IH.
    + rewrite nth_error_app1; assumption.
    + intros z Hz. apply in_app_or in Hz. destruct Hz as [Hz|[<-|[]]]; auto.
      now apply Qle_bool_iff.
    + intros j z Hj Hz. rewrite nth_error_app1 in Hz by lia. eauto.
    + rewrite nth_error_app2 by lia. now rewrite Nat.sub_diag.
    + intros z Hz. apply in_app_or in Hz. destruct Hz as [Hz|[<-|[]]].
      * apply Qle_trans with top; auto.
        apply Qlt_le_weak, Qnot_le_lt. intros Hc. apply Qle_bool_iff in Hc. congruence.
      * apply Qle_refl.
    + intros j z Hj Hz. rewrite nth_error_app1 in Hz by lia.
      apply Qle_lt_trans with top.
      * apply Hle. eapply nth_error_In; eauto.
      * apply Qnot_le_lt. intros Hc. apply Qle_bool_iff in Hc. congruence.
Qed.

Lemma argmax_first l i top :
  argmax l = Some i -> nth_error l i = Some top ->
  forall j x, (j < i)%nat -> nth_error l j = Some x -> x < top.
Proof.
  destruct l as [|x0 l]; simpl; [discriminate|]. intros [= <-] Htop.
  destruct (argmax_from_first l [x0] 0%nat x0) as (top' & Htop' & Hfirst).
  - reflexivity.
  - intros z [<-|[]]. apply Qle_refl.
  - intros j z Hj. lia.
  - simpl in Htop', Hfirst. assert (top' = top) by congruence. subst top'.
    exact Hfirst.
Qed.

(** X10. Ties go to the first candidate: in a completed search every
    candidate before the selected one has a strictly lower mean test score,
    no candidate has a higher one, and the selected parameters are the
    candidate at [best_index_]. *)
Theorem SearchCV_selects_first_best estimator candidates X y gs :
  SearchCV_fit estimator candidates X y = Some gs ->
  nth_error candidates (best_index_ gs) = Some (best_params_ gs)
  /\ nth_error (mean_test_score gs) (best_index_ gs) = Some (best_score_ gs)
  /\ (forall m, In m (mean_test_score gs) -> m <= best_score_ gs)
  /\ (forall j m, (j < best_index_ gs)%nat ->
                  nth_error (mean_test_score gs) j = Some m -> m < best_score_ gs).
Proof.
  intros H. apply SearchCV_fit_inv in H.
  destruct H as (folds & out & est & _ & _ & _ & _ & _ & Hbest & Hbp & Hbs & _).
  split; [assumption|]. split; [assumption|]. split.
  - destruct (argmax_spec _ _ Hbest) as (top & Htop & Hmax).
    assert (top = best_score_ gs) by congruence. subst top. exact Hmax.
  - exact (argmax_first _ _ _ Hbest Hbs).
Qed.

Lemma hd_compress_first {A : Type} (mask : list bool) : forall (l : list A) i,
  length mask = length l ->
  (forall j, (j < i)%nat -> nth_error mask j = Some false) ->
  nth_error mask i = Some true ->
  hd_error (compress mask l) = nth_error l i.
Proof.
  induction mask as [|b mask IH]; intros [|x l] i Hlen Hbefore Hi; simpl in *;
    try discriminate.
  - destruct i; discriminate.
  - destruct i as [|i]; simpl in *.
    + injection Hi as ->. reflexivity.
    + assert (Hb := Hbefore 0%nat ltac:(lia)). simpl in Hb. injection Hb as ->.
      apply IH; [lia| |assumption].
      intros j Hj. apply (Hbefore (S j)). lia.
Qed.

(** X11. The lookup of In[28] finds the selected candidate: for a completed
    search the row appended to [performances] carries the negated best score
    and the standard deviation recorded at [best_index_]; the lookup never
    comes back empty. *)
Theorem performance_of_search label estimator candidates X y gs :
  SearchCV_fit estimator candidates X y = Some gs ->
  exists std,
    nth_error (std_test_score gs) (best_index_ gs) = Some std
    /\ performance_of (label, gs)
       = Some {| Experiment := label; MAE_mean := - best_score_ gs; MAE_std := std |}.
Proof.
  intros H. apply SearchCV_fit_inv in H.
  destruct H as (folds & out & est & _ & _ & _ & Hmean & Hstd & Hbest & _ & Hbs & _).
  assert (Hfirst := argmax_first _ _ _ Hbest Hbs).
  assert (Hlen : length (map (fun m => Qeq_bool m (best_score_ gs)) (mean_test_score gs))
                 = length (std_test_score gs)).
  { rewrite Hmean, Hstd. now rewrite !length_map. }
  assert (Hhd : hd_error (compress (map (fun m => Qeq_bool m (best_score_ gs))
                                        (mean_test_score gs)) (std_test_score gs))
                = nth_error (std_test_score gs) (best_index_ gs)).
  { apply hd_compress_first; [exact Hlen| |].
    - intros j Hj. rewrite nth_error_map.
      destruct (nth_error (mean_test_score gs) j) as [m|] eqn:Ej.
      + simpl. f_equal. destruct (Qeq_bool m (best_score_ gs)) eqn:E; [|reflexivity].
        apply Qeq_bool_iff in E. assert (Hlt := Hfirst j m Hj Ej).
        rewrite E in Hlt. exfalso. exact (Qlt_irrefl _ Hlt).
      + apply nth_error_None in Ej.
        assert (best_index_ gs < length (mean_test_score gs))%nat
          by (apply nth_error_Some; congruence).
        lia.
    - rewrite nth_error_map, Hbs. simpl. f_equal. apply Qeq_bool_iff. reflexivity. }
  destruct (nth_error (std_test_score gs) (best_index_ gs)) as [std|] eqn:Es.
  - exists std. split; [reflexivity|]. unfold performance_of. simpl.
    now rewrite Hhd.
  - apply nth_error_None in Es. rewrite <- Hlen, length_map in Es.
    assert (best_index_ gs < length (mean_test_score gs))%nat
      by (apply nth_error_Some; congruence).
    lia.
Qed.

Lemma Qsum_scale (w : Q) (a : list Q) :
  Qsum (map (fun p => fst p * snd p) (combine a (map (fun _ => w) a))) == Qsum a * w.
Proof.
  induction a as [|x a IH]; simpl; [ring|]. rewrite IH. ring.
Qed.

Lemma Qsum_const (w : Q) {A : Type} (a : list A) :
  Qsum (map (fun _ => w) a) == inject_Z (Z.of_nat (length a)) * w.
Proof.
  induction a as [|x a IH]; [simpl; ring|].
  cbn [map Qsum fold_right length]. fold (Qsum (map (fun _ => w) a)). rewrite IH.
  rewrite Nat2Z.inj_succ. unfold Z.succ. rewrite inject_Z_plus. ring.
Qed.

(** With equal weights the weighted average is the plain mean. *)
Lemma average_equal_weights (w : Q) (a : list Q) :
  0 < w -> average a (map (fun _ => w) a) == mean a.
Proof.
  intros Hw. unfold average, mean. rewrite Qsum_scale, Qsum_const.
  destruct a as [|x a].
  - simpl. reflexivity.
  - assert (Hpos : 0 < inject_Z (Z.of_nat (length (x :: a)))).
    { unfold Qlt; simpl. lia. }
    field. split; intros H; [rewrite H in Hpos|rewrite H in Hw];
      eapply Qlt_irrefl; eassumption.
Qed.

Lemma KFold_equal_folds n folds train test :
  (n mod 5 = 0)%nat -> KFold_split 5 n = Some folds -> In (train, test) folds ->
  length test = (n / 5)%nat /\ (0 < n / 5)%nat.
Proof.
  intros Hmod Hsplit Hin. unfold KFold_split in Hsplit.
  destruct (Nat.ltb_spec n 5) as [|Hn]; [discriminate|].
  assert (E : folds = KFold_from n 0 (fold_sizes 5 n)) by congruence.
  rewrite E in Hin.
  destruct (KFold_from_spec n (fold_sizes 5 n) 0%nat) as (_ & _ & Hfold).
  { rewrite fold_sizes_sum; lia. }
  destruct (Hfold _ _ Hin) as (_ & Hs). unfold fold_sizes in Hs.
  apply in_map_iff in Hs. destruct Hs as (i & Hi & _). rewrite Hmod in Hi.
  replace (i <? 0)%nat with false in Hi by (symmetry; apply Nat.ltb_ge; lia).
  split; [lia|]. apply Nat.div_str_pos. lia.
Qed.

(** X12. When the number of rows is a multiple of 5 the folds have equal
    size, and the mean cross-validated MAE that the search records for a
    candidate is the plain mean of the MAE of the five folds. *)
Theorem cross_val_MAE_is_plain_mean estimator X y p m :
  (length X mod 5 = 0)%nat ->
  cross_val_MAE estimator X y p = Some m ->
  exists folds out,
    KFold_split 5 (length X) = Some folds
    /\ mapM (fit_and_score estimator X y p) folds = Some out
    /\ length out = 5%nat
    /\ m == mean (map (fun o => - fst o) out).
Proof.
  intros Hmod. unfold cross_val_MAE.
  destruct (KFold_split 5 (length X)) as [folds|] eqn:Ef; [|discriminate].
  destruct (mapM _ folds) as [out|] eqn:Eo; [|discriminate].
  intros [= <-]. exists folds, out. split; [reflexivity|]. split; [exact Eo|].
  assert (Hfive : length folds = 5%nat).
  { assert (Ef' := Ef). unfold KFold_split in Ef'.
    destruct (length X <? 5)%nat; [discriminate|].
    assert (E : folds = KFold_from (length X) 0 (fold_sizes 5 (length X))) by congruence.
    destruct (KFold_from_spec (length X) (fold_sizes 5 (length X)) 0%nat) as (Hl & _).
    - rewrite fold_sizes_sum; lia.
    - rewrite E, Hl. reflexivity. }
  split; [rewrite (mapM_length _ _ _ Eo); exact Hfive|].
  set (w := inject_Z (Z.of_nat (length X / 5))).
  assert (Hw : map snd out = map (fun _ => w) (map fst out)).
  { rewrite map_map. apply map_ext_in. intros o Ho.
    destruct (mapM_In _ _ _ Eo o Ho) as ([train test] & Hin & Hfs).
    unfold fit_and_score in Hfs.
    destruct (fit_fold _ _ _ _ _); [|discriminate].
    destruct (take test X); [|discriminate].
    destruct (take test y); [|discriminate].
    destruct (neg_mean_absolute_error _ _ _); [|discriminate].
    injection Hfs as <-. simpl. unfold w.
    now rewrite (proj1 (KFold_equal_folds _ _ _ _ Hmod Ef Hin)). }
  unfold test_score_stats. cbn [fst]. rewrite Hw, average_equal_weights.
  - unfold mean. rewrite !length_map.
    assert (Hs : Qsum (map (fun o => - fst o) out) == - Qsum (map fst out)).
    { clear. induction out as [|o out IH]; simpl; [reflexivity|]. rewrite IH. ring. }
    rewrite Hs. unfold Qdiv. ring.
  - destruct folds as [|[train test] folds]; [discriminate|].
    assert (H := proj2 (KFold_equal_folds _ _ train test Hmod Ef (or_introl eq_refl))).
    unfold w, Qlt. cbn [Qnum Qden inject_Z]. lia.
Qed.

Lemma train_test_split_train_size df t seed g train test :
  fst (train_test_split df t seed g) = Some (train, test) ->
  (len train
   <= len df - Z.to_nat (Qceiling (t * inject_Z (Z.of_nat (len df)))))%nat.
Proof.
  unfold train_test_split.
  destruct (rs_permutation _ _) as [permutation rng']. cbn [fst].
  intros H. destruct (iloc df (firstn _ _)) as [tr|] eqn:Etr; [|discriminate].
  destruct (iloc df (firstn _ permutation)) as [te|]; [|discriminate].
  injection H as <- <-. unfold iloc in Etr.
  destruct (take _ (index df)) as [ix|] eqn:Eix; [|discriminate].
  destruct (mapM _ (columns df)); [|discriminate].
  injection Etr as <-. unfold len at 1. cbn [index].
  rewrite (mapM_length _ _ _ Eix). apply firstn_le_length.
Qed.

Lemma small_frames_train_under_five n :
  (n < 8)%nat ->
  (n - Z.to_nat (Qceiling (test_size * inject_Z (Z.of_nat n))) < 5)%nat.
Proof.
  intros Hn. do 8 (destruct n as [|n]; [vm_compute; lia|]). lia.
Qed.

(** X13. The notebook needs eight priced rows: a run that completes has at
    least 5 training rows (the 5-fold search refuses fewer), and with a third
    of the rows held out that takes at least 8 rows with a price. *)
Theorem notebook_needs_eight_rows csv g s :
  notebook csv g = Some s ->
  (5 <= len (tr_num s))%nat /\ (8 <= len (data s))%nat.
Proof.
  intros H. apply notebook_inv in H.
  destruct H as (_ & Hsplit & Hnum & (X & y & g' & HX & _ & Hgs & _) & _).
  apply SearchCV_fit_inv in Hgs. destruct Hgs as (folds & _ & _ & Hfolds & _).
  unfold KFold_split in Hfolds.
  destruct (Nat.ltb_spec (length X) 5) as [|Hfive]; [discriminate|].
  destruct (features_target_supervised_half _ _ HX) as (Xdf & _ & Hlen & HXdf).
  apply as_matrix_shape in HXdf. destruct HXdf as [HlenX _].
  assert (Htr : len (tr_num s) = len (tr_all s)) by (rewrite Hnum; reflexivity).
  assert (Hsize := train_test_split_train_size _ _ _ _ _ _ Hsplit).
  split; [lia|].
  destruct (Nat.lt_ge_cases (len (data s)) 8) as [Hsmall|]; [|assumption].
  apply small_frames_train_under_five in Hsmall. lia.
Qed.

Lemma train_test_split_seeded_global df t z g :
  snd (train_test_split df t (Some z) g) = g.
Proof.
  unfold train_test_split. now destruct (rs_permutation _ _).
Qed.

Lemma RandomizedSearchCV_fit_seeded_global estimator dists n z X y g :
  snd (RandomizedSearchCV_fit estimator dists n (Some z) X y g) = g.
Proof.
  unfold RandomizedSearchCV_fit, ParameterSampler.
  now destruct (sample_iter _ _ _).
Qed.

(** X14. The notebook leaves numpy's global generator alone: every call that
    draws random numbers is given [random_state = 0] and seeds a generator of
    its own, so after a completed run the global generator is in the state it
    started in. *)
Theorem notebook_keeps_global_generator csv g s :
  notebook csv g = Some s -> global_rng s = g.
Proof.
  unfold notebook. intros H.
  destruct (dropna csv ["price"]) as [d|]; [|discriminate].
  destruct (train_test_split d test_size (Some random_state) g) as [split1 g1] eqn:E1.
  assert (Hg1 := train_test_split_seeded_global d test_size random_state g).
  rewrite E1 in Hg1. simpl in Hg1. subst g1.
  repeat run_step H.
  repeat match goal with
         | E : RandomizedSearchCV_fit ?e ?d ?n (Some ?z) ?X ?y ?g0 = (_, ?g1) |- _ =>
             let Hg := fresh "Hg" in
             assert (Hg := RandomizedSearchCV_fit_seeded_global e d n z X y g0);
             rewrite E in Hg; simpl in Hg; subst g1; clear E
         | E : train_test_split ?d0 ?t (Some ?z) ?g0 = (_, ?g1) |- _ =>
             let Hg := fresh "Hg" in
             assert (Hg := train_test_split_seeded_global d0 t z g0);
             rewrite E in Hg; simpl in Hg; subst g1; clear E
         end.
  injection H as <-. reflexivity.
Qed.

Lemma check_array_inv (X X' : matrix) : check_array X = Some X' -> X' = X /\ X <> [].
Proof. destruct X; simpl; [discriminate|]. intros [= <-]. split; [reflexivity|discriminate]. Qed.

Lemma check_finite_length X X' : check_finite X = Some X' -> length X' = length X /\ X <> [].
Proof.
  unfold check_finite. destruct (check_array X) as [X0|] eqn:E; [|discriminate].
  apply check_array_inv in E. destruct E as [-> Hne]. intros H.
  split; [eapply mapM_length; eauto|assumption].
Qed.

Lemma transform_length f X Xt : transform f X = Some Xt -> length Xt = length X /\ X <> [].
Proof.
  destruct f as [s|m s|m]; simpl; [| |discriminate].
  - unfold Imputer_transform. destruct (check_array X) as [X0|] eqn:E; [|discriminate].
    apply check_array_inv in E. destruct E as [-> Hne].
    destruct (_ =? _)%nat; [|discriminate]. intros [= <-]. now rewrite length_map.
  - unfold StandardScaler_transform. destruct (check_finite X) as [X0|] eqn:E; [|discriminate].
    apply check_finite_length in E. destruct E as [Hl Hne].
    destruct (_ =? _)%nat; [|discriminate]. intros [= <-]. now rewrite length_map.
Qed.

(** A fitted pipeline predicts one value per row, and refuses an empty matrix. *)
Lemma Pipeline_predict_length fs : forall X y_pred,
  Pipeline_predict fs X = Some y_pred -> length y_pred = length X /\ X <> [].
Proof.
  induction fs as [|f fs IH]; intros X y_pred H; [discriminate|].
  assert (Hstep : forall Xt, transform f X = Some Xt ->
                             Pipeline_predict fs Xt = Some y_pred ->
                             length y_pred = length X /\ X <> []).
  { intros Xt Ht Hp. apply transform_length in Ht. apply IH in Hp.
    destruct Ht as [<- Hne]. tauto. }
  simpl in H. destruct f as [s|m s|m].
  - destruct (transform (Imputer_ s) X) eqn:Et; [|discriminate]. eauto.
  - destruct (transform (StandardScaler_ m s) X) eqn:Et; [|discriminate]. eauto.
  - destruct fs as [|f' fs']; [|discriminate].
    destruct (check_finite X) as [X'|] eqn:E; [|discriminate].
    apply check_finite_length in E. injection H as <-.
    now rewrite length_map.
Qed.

(** X15. The scorer ['neg_mean_absolute_error'] is defined only on a
    non-empty matrix with one target per row, and its value is never
    positive: 0 is the best score a pipeline can get. *)
Theorem neg_mean_absolute_error_nonpositive est X y score :
  neg_mean_absolute_error est X y = Some score ->
  score <= 0 /\ length X = length y /\ X <> [].
Proof.
  unfold neg_mean_absolute_error.
  destruct (Pipeline_predict est X) as [y_pred|] eqn:Ep; [|discriminate].
  destruct (mean_absolute_error y y_pred) as [mae|] eqn:Em; [|discriminate].
  intros [= <-]. apply Pipeline_predict_length in Ep. destruct Ep as [Hl Hne].
  split; [|split; [|assumption]].
  - apply mean_absolute_error_nonneg in Em.
    apply Qopp_le_compat in Em. exact Em.
  - unfold mean_absolute_error in Em.
    destruct (length y =? length y_pred)%nat eqn:E; [|discriminate].
    apply Nat.eqb_eq in E. congruence.
Qed.

Lemma Qabs_zero x : Qabs x == 0 -> x == 0.
Proof.
  intros H. destruct (proj1 (Qabs_Qle_condition x 0)) as [H1 H2].
  - rewrite H. apply Qle_refl.
  - apply Qle_antisym; assumption.
Qed.

Lemma abs_errors_zero : forall y_true y_pred,
  length y_true = length y_pred ->
  (Qsum (map (fun p => Qabs (snd p - fst p)) (combine y_true y_pred)) == 0
   <-> Forall2 Qeq y_true y_pred).
Proof.
  induction y_true as [|a y_true IH]; intros [|b y_pred] El; try discriminate.
  - cbn. split; [constructor|reflexivity].
  - injection El as El. cbn [combine map Qsum fold_right fst snd].
    fold (Qsum (map (fun p => Qabs (snd p - fst p)) (combine y_true y_pred))).
    assert (Hrest : 0 <= Qsum (map (fun p => Qabs (snd p - fst p)) (combine y_true y_pred))).
    { apply Qsum_nonneg. intros x Hx. apply in_map_iff in Hx.
      destruct Hx as (p & Hp & _). rewrite <- Hp. exact (Qabs_nonneg (snd p - fst p)). }
    assert (Hhead := Qabs_nonneg (b - a)).
    split.
    + intros Hsum.
      assert (H1 : Qabs (b - a) == 0).
      { apply Qle_antisym; [|assumption]. rewrite <- Hsum.
        rewrite <- (Qplus_0_r (Qabs (b - a))) at 1.
        apply Qplus_le_compat; [apply Qle_refl|assumption]. }
      constructor.
      * apply Qabs_zero in H1.
        setoid_replace a with (b - (b - a)) by ring. rewrite H1. ring.
      * apply IH; [assumption|]. rewrite H1 in Hsum. rewrite <- Hsum. ring.
    + intros H. inversion H as [|? ? ? ? Hab Hrest']; subst.
      rewrite (proj2 (IH y_pred El) Hrest').
      setoid_replace (b - a) with 0 by (rewrite Hab; ring). reflexivity.
Qed.

(** X16. The mean absolute error is 0 exactly when every prediction equals
    its target. *)
Theorem mean_absolute_error_zero_iff y_true y_pred mae :
  mean_absolute_error y_true y_pred = Some mae ->
  (mae == 0 <-> Forall2 Qeq y_true y_pred).
Proof.
  unfold mean_absolute_error.
  destruct (length y_true =? length y_pred)%nat eqn:El; [|discriminate].
  apply Nat.eqb_eq in El. cbn [negb].
  destruct y_true as [|t0 y_true0] eqn:Ey; [discriminate|]. rewrite <- Ey in *.
  intros H. apply (f_equal (fun o => match o with Some q => q | None => 0 end)) in H.
  cbn beta iota in H. subst mae.
  assert (Hn : 0 < inject_Z (Z.of_nat (length
                 (map (fun p => Qabs (snd p - fst p)) (combine y_true y_pred))))).
  { rewrite length_map, length_combine, <- El, Nat.min_id, Ey.
    unfold Qlt. simpl. lia. }
  set (errs := map (fun p => Qabs (snd p - fst p)) (combine y_true y_pred)) in *.
  assert (Hmean : mean errs == 0 <-> Qsum errs == 0).
  { unfold mean. split; intros H.
    - assert (E : Qsum errs == Qsum errs / inject_Z (Z.of_nat (length errs))
                               * inject_Z (Z.of_nat (length errs))).
      { field. intros Hz. rewrite Hz in Hn. exact (Qlt_irrefl _ Hn). }
      rewrite E, H. ring.
    - rewrite H. unfold Qdiv. ring. }
  rewrite Hmean. subst errs. now apply abs_errors_zero.
Qed.

Lemma median_None l : median l = None <-> l = [].
Proof.
  unfold median. rewrite (Permutation_length (sort_perm Qle_bool l)).
  destruct l as [|x l]; [split; reflexivity|].
  set (s := sort Qle_bool (x :: l)).
  assert (Hlen : length s = length (x :: l)) by apply Permutation_length, sort_perm.
  set (n := length (x :: l)) in *. assert (Hn : (0 < n)%nat) by (unfold n; simpl; lia).
  replace (n =? 0)%nat with false by (symmetry; apply Nat.eqb_neq; lia).
  assert (H2 : (n / 2 < n)%nat) by (apply Nat.div_lt; lia).
  split; [|discriminate]. intros H. exfalso.
  destruct (Nat.odd n).
  - apply nth_error_None in H. lia.
  - destruct (nth_error s (n / 2 - 1)) as [a|] eqn:Ea.
    + destruct (nth_error s (n / 2)) as [b|] eqn:Eb; [discriminate|].
      apply nth_error_None in Eb. lia.
    + apply nth_error_None in Ea. lia.
Qed.

Lemma present_nil {A : Type} (v : list (option A)) :
  present v = [] <-> forall x, In x v -> x = None.
Proof.
  induction v as [|[a|] v IH]; simpl.
  - split; [intros _ x []|reflexivity].
  - split; [discriminate|]. intros H. specialize (H (Some a) (or_introl eq_refl)).
    discriminate.
  - rewrite IH. split; intros H x; [intros [<-|Hx]; auto|auto].
Qed.

(** X17. The imputer keeps one statistic per column of the matrix it is
    fitted on, and the statistic of a column is NaN exactly when no row has a
    value in that column; fitting on no rows raises. *)
Theorem Imputer_fit_statistics X statistics :
  Imputer_fit X = Some statistics ->
  X <> []
  /\ length statistics = n_features X
  /\ forall j, (j < n_features X)%nat ->
       (nth_error statistics j = Some None <-> forall r, In r X -> nth j r None = None).
Proof.
  unfold Imputer_fit. destruct (check_array X) as [X'|] eqn:E; [|discriminate].
  apply check_array_inv in E. destruct E as [-> Hne]. intros [= <-].
  split; [assumption|]. split; [now rewrite length_map, length_seq|].
  intros j Hj. rewrite nth_error_map, nth_error_seq.
  replace (j <? n_features X)%nat with true by (symmetry; apply Nat.ltb_lt; lia).
  cbn [option_map Nat.add]. split.
  - intros H. injection H as H. apply median_None in H.
    assert (H' := proj1 (present_nil _) H).
    intros r Hr. apply H'. unfold column. apply in_map_iff. eauto.
  - intros H. f_equal. apply median_None, present_nil.
    intros x Hx. unfold column in Hx. apply in_map_iff in Hx.
    destruct Hx as (r & <- & Hr). auto.
Qed.




Lemma set_step_names steps : forall step param v steps',
  set_step steps step param v = Some steps' ->
  map fst steps' = map fst steps
  /\ forall n e, In (n, e) steps -> n <> step -> In (n, e) steps'.
Proof.
  induction steps as [|[n0 e0] steps IH]; intros step param v steps' H; simpl in H;
    [discriminate|].
  destruct (String.eqb_spec n0 step) as [->|Hne].
  - destruct (set_param e0 param v) as [e'|]; [|discriminate]. injection H as <-.
    split; [reflexivity|]. intros n e [E|Hin] Hn; [congruence|now right].
  - destruct (set_step steps step param v) as [steps''|] eqn:E; [|discriminate].
    injection H as <-. destruct (IH _ _ _ _ E) as [Hnames Hkeep].
    split; [simpl; now f_equal|].
    intros n e [E0|Hin] Hn; [left; exact E0|right; eauto].
Qed.

(** X19. [set_params] reconfigures steps in place: when it succeeds the
    pipeline has the same step names in the same order, and a step that no
    key of the candidate names is exactly as it was (so the imputer and the
    scaler are untouched by the candidates of the searches). *)
Theorem set_params_keeps_steps steps : forall p steps',
  set_params steps p = Some steps' ->
  map fst steps' = map fst steps
  /\ forall n e, In (n, e) steps ->
       (forall key v step param, In (key, v) p ->
                                 split_param key = Some (step, param) -> step <> n) ->
       In (n, e) steps'.
Proof.
  intros p. revert steps. induction p as [|[key v] p IH]; intros steps steps' H; simpl in H.
  - injection H as <-. auto.
  - destruct (split_param key) as [[step param]|] eqn:Ek; [|discriminate].
    destruct (set_step steps step param v) as [steps1|] eqn:E1; [|discriminate].
    destruct (set_step_names _ _ _ _ _ E1) as [Hn1 Hk1].
    destruct (IH _ _ H) as [Hn Hk]. split; [congruence|].
    intros n e Hin Hkeys. apply Hk.
    + apply Hk1; [assumption|]. intros Heq.
      exact (Hkeys key v step param (or_introl eq_refl) Ek (eq_sym Heq)).
    + intros key' v' step' param' Hin'. apply (Hkeys key' v'). now right.
Qed.

(** X20. The table of In[15] lists every column of the numeric training
    frame once, in order, and reports 0 missing values for [price]: the
    price column is numeric, so it survives In[14], and cleaning left it
    without NaN. *)
Theorem null_counts_price_is_zero csv g s :
  NoDup (column_names csv) ->
  notebook csv g = Some s ->
  map fst (null_counts (tr_num s)) = column_names (tr_num s)
  /\ In ("price", 0%nat) (null_counts (tr_num s)).
Proof.
  intros Hnd H. split.
  - unfold null_counts, column_names. rewrite map_map. reflexivity.
  - apply notebook_inv in H.
    destruct H as (Hdata & Hsplit & Hnum & (X & y & g' & _ & Hy & _) & _).
    assert (Hclean := dropna_no_missing_price _ _ Hnd Hdata).
    apply train_test_split_inv in Hsplit. destruct Hsplit as (a & b & Ha & _).
    assert (Htr : no_missing_price (tr_num s)).
    { rewrite Hnum. eauto using iloc_no_missing_price, select_dtypes_no_missing_price. }
    unfold target in Hy. destruct (getitem (tr_num s) "price") as [p|] eqn:Ep; [|discriminate].
    apply find_In_name in Ep. destruct Ep as [Hin Hname].
    unfold null_counts. apply in_map_iff. exists p. split; [|assumption].
    rewrite Hname. f_equal. unfold isna_sum. apply Forall_false_count. now apply Htr.
Qed.

Lemma scale_row_nth mean_ : forall scale_ r j m s x,
  nth_error mean_ j = Some m -> nth_error scale_ j = Some s -> nth_error r j = Some x ->
  nth_error (scale_row mean_ scale_ r) j = Some (Some ((x - m) / s)).
Proof.
  induction mean_ as [|m0 mean_ IH]; intros [|s0 scale_] [|x0 r] [|j] m s x Hm Hs Hx;
    simpl in *; try discriminate.
  - now injection Hm as ->; injection Hs as ->; injection Hx as ->.
  - eauto.
Qed.

Lemma Qsum_centered (m s : Q) (l : list Q) :
  Qsum (map (fun x => (x - m) / s) l)
  == (Qsum l - inject_Z (Z.of_nat (length l)) * m) / s.
Proof.
  induction l as [|x l IH].
  - simpl. unfold Qdiv. ring.
  - cbn [map Qsum fold_right length]. fold (Qsum (map (fun x => (x - m) / s) l)).
    fold (Qsum l). rewrite IH, Nat2Z.inj_succ. unfold Z.succ.
    rewrite inject_Z_plus. unfold Qdiv. ring.
Qed.

Lemma mean_centered (s : Q) (l : list Q) :
  l <> [] -> mean (map (fun x => (x - mean l) / s) l) == 0.
Proof.
  intros Hne. unfold mean at 1. rewrite Qsum_centered, length_map.
  assert (Hn : ~ inject_Z (Z.of_nat (length l)) == 0).
  { destruct l; [congruence|]. unfold Qeq. simpl. lia. }
  assert (E : Qsum l - inject_Z (Z.of_nat (length l)) * mean l == 0).
  { unfold mean. field. exact Hn. }
  rewrite E. unfold Qdiv. ring.
Qed.

Lemma mapM_id_map {A : Type} (r : list (option A)) (r' : list A) :
  mapM (fun x => x) r = Some r' -> r = map Some r'.
Proof.
  revert r'. induction r as [|[a|] r IH]; intros r' H; simpl in H; try discriminate.
  - now injection H as <-.
  - destruct (mapM (fun x => x) r) as [r0|]; [|discriminate].
    injection H as <-. simpl. f_equal. now apply IH.
Qed.

(** X21. Scaling centres the data it is fitted on: for a rectangular matrix
    without NaN, fitting the scaler and transforming the same rows succeeds,
    keeps the rows and gives every column mean zero. *)
Theorem StandardScaler_centres X mean_ scale_ :
  Forall (fun r => length r = n_features X) X ->
  StandardScaler_fit X = Some (mean_, scale_) ->
  exists Xt,
    StandardScaler_transform mean_ scale_ X = Some Xt
    /\ length Xt = length X
    /\ forall j, (j < n_features X)%nat ->
         mean (map (fun r => match nth j r None with Some v => v | None => 0 end) Xt) == 0.
Proof.
  intros Hrect. unfold StandardScaler_fit, StandardScaler_transform.
  destruct (check_finite X) as [X'|] eqn:E; [|discriminate].
  intros [= <- <-]. rewrite !length_map, length_seq, Nat.eqb_refl.
  eexists. split; [reflexivity|].
  assert (Hlen := check_finite_length _ _ E). destruct Hlen as [Hlen Hne].
  split; [now rewrite length_map|].
  intros j Hj. set (w := n_features X) in *.
  assert (Hrect' : Forall (fun r' => length r' = w) X').
  { unfold check_finite in E. destruct (check_array X) as [X0|] eqn:E0; [|discriminate].
    apply check_array_inv in E0. destruct E0 as [-> _].
    apply Forall_forall. intros r' Hr'.
    destruct (mapM_In _ _ _ E r' Hr') as (r & Hr & Hrr').
    rewrite (mapM_length _ _ _ Hrr'). rewrite Forall_forall in Hrect. now apply Hrect. }
  set (col := map (fun r => nth j r 0) X').
  set (s := handle_zeros_in_scale (sqrt (variance col))).
  set (means := map mean (map (fun j0 => map (fun r => nth j0 r 0) X') (seq 0 w))).
  set (scales := map (fun c => handle_zeros_in_scale (sqrt (variance c)))
                     (map (fun j0 => map (fun r => nth j0 r 0) X') (seq 0 w))).
  assert (Hlt : (j <? w)%nat = true) by (apply Nat.ltb_lt; lia).
  assert (Hm : nth_error means j = Some (mean col)).
  { unfold means. rewrite !nth_error_map, nth_error_seq, Hlt. reflexivity. }
  assert (Hs : nth_error scales j = Some s).
  { unfold scales. rewrite !nth_error_map, nth_error_seq, Hlt. reflexivity. }
  assert (Hcols : map (fun r => match nth j r None with Some v => v | None => 0 end)
                      (map (scale_row means scales) X')
                  = map (fun x => (x - mean col) / s) col).
  { unfold col at 2. rewrite !map_map. apply map_ext_in. intros r' Hr'.
    rewrite Forall_forall in Hrect'. specialize (Hrect' r' Hr').
    assert (Hx : nth_error r' j = Some (nth j r' 0)) by (apply nth_error_nth'; lia).
    assert (Hn := scale_row_nth means scales r' j _ _ _ Hm Hs Hx).
    now rewrite (nth_error_nth _ j None Hn). }
  rewrite Hcols. apply mean_centered.
  unfold col. destruct X'; [|discriminate]. simpl in Hlen. destruct X; [congruence|discriminate].
Qed.
End Model.

(** ** The statements at the sample instance *)

Section AtSample.
Import Pandas Numpy.

Local Abbreviation run_notebook :=
  (notebook Sample.RandomState Sample.seed Sample.permutation Sample.randint Sample.rvs
            Sample.sqrt Q Sample.Ridge_fit Sample.GBR_fit Sample.predict_row).
Local Abbreviation split df g :=
  (train_test_split Sample.RandomState Sample.seed Sample.permutation
                    df test_size (Some random_state) g).
Local Abbreviation fold_fit X :=
  (fit_fold Sample.sqrt Q Sample.Ridge_fit Sample.GBR_fit ridge_pipeline
            X Sample.y [("rgs__alpha", 1)] [1; 2; 3; 4]%nat).
Local Abbreviation grid_search :=
  (GridSearchCV_fit Sample.sqrt Q Sample.Ridge_fit Sample.GBR_fit Sample.predict_row
                    ridge_pipeline ridge_grid).

(** C1 on the cleaned sample frame, from two different generator states. *)
Lemma train_test_split_reproducible_sample :
  fst (split Sample.data 5%Z) = fst (split Sample.data 7%Z)
  /\ partition_labels (fst (split (get_dummies Sample.data) 7%Z))
     = partition_labels (fst (split Sample.data 5%Z)).
Proof.
  apply train_test_split_reproducible. unfold wf. repeat constructor.
Defined.

(** C2 on five rows: the first fold holds out row 0, whose entry is replaced. *)
Lemma fold_statistics_sample :
  KFold_split 5 (length (perturb Sample.X 0 0 (Some 100)))
  = Some [([1; 2; 3; 4], [0]); ([0; 2; 3; 4], [1]); ([0; 1; 3; 4], [2]);
          ([0; 1; 2; 4], [3]); ([0; 1; 2; 3], [4])]%nat
  /\ fold_fit (perturb Sample.X 0 0 (Some 100)) = fold_fit Sample.X.
Proof.
  apply fold_statistics_ignore_held_out with (test := [0%nat]).
  - reflexivity.
  - left. reflexivity.
  - left. reflexivity.
Defined.




(** C5 on a run of the notebook over the sample frame. *)
Lemma partitions_have_no_missing_price_sample :
  exists s,
    run_notebook Sample.csv 42%Z = Some s
    /\ no_missing_price (tr_all _ _ s) /\ no_missing_price (te_all _ _ s)
    /\ no_missing_price (tr_num _ _ s)
    /\ no_missing_price (tr _ _ s) /\ no_missing_price (te _ _ s).
Proof.
  destruct (run_notebook Sample.csv 42%Z) as [s|] eqn:E.
  - exists s. split; [reflexivity|].
    refine (partitions_have_no_missing_price _ _ _ _ _ _ _ _ _ _ _ _ _ _ E).
    repeat constructor; simpl; intuition discriminate.
  - vm_compute in E. discriminate E.
Defined.

(** C6 on a run of the notebook over the sample frame, and on a frame
    without rows. *)
Lemma held_out_MAE_sample :
  exists s mae,
    run_notebook Sample.csv 42%Z = Some s
    /\ held_out_MAE Q Sample.predict_row (ridge_cat_gs _ _ s) (te _ _ s) = Some mae
    /\ 0 <= mae
    /\ held_out_MAE Q Sample.predict_row (ridge_cat_gs _ _ s)
                    {| index := []; columns := [ {| name := "price"; values := Float64 [] |} ] |}
       = None.
Proof.
  destruct (run_notebook Sample.csv 42%Z) as [s|] eqn:E.
  - assert (H := E). apply notebook_inv in H.
    destruct H as (_ & _ & _ & _ & _ & _ & _ & _ & _ & Hm).
    exists s, (test_MAE _ _ s). split; [reflexivity|]. split; [exact Hm|].
    split.
    + exact (proj1 (held_out_MAE_nonnegative_or_undefined
                      Q Sample.predict_row (ridge_cat_gs _ _ s) (te _ _ s)) _ Hm).
    + apply (proj2 (held_out_MAE_nonnegative_or_undefined
                      Q Sample.predict_row (ridge_cat_gs _ _ s) _)).
      reflexivity.
  - vm_compute in E. discriminate E.
Defined.

(** C7 on a run of the notebook over the sample frame. *)
Lemma performances_three_rows_sorted_sample :
  exists s,
    run_notebook Sample.csv 42%Z = Some s
    /\ map Experiment (performances _ _ s) = ["Ridge num"; "Gradient boosting"; "Ridge cat"]
    /\ Permutation (Out_29 _ _ s) (performances _ _ s)
    /\ StronglySorted (fun a b => MAE_mean a <= MAE_mean b) (Out_29 _ _ s).
Proof.
  destruct (run_notebook Sample.csv 42%Z) as [s|] eqn:E.
  - exists s. split; [reflexivity|].
    destruct (performances_three_rows_sorted _ _ _ _ _ _ _ _ _ _ _ _ _ E)
      as (H1 & _ & _ & _ & _ & H2 & H3).
    auto.
  - vm_compute in E. discriminate E.
Defined.

(** The sample generator meets the contract of the two draws. *)
Lemma sample_randint_range r high :
  (0 < high)%Z -> (0 <= fst (Sample.randint r high) < high)%Z.
Proof. intros H. simpl. apply Z.mod_pos_bound, H. Qed.

Lemma sample_rvs_range low high r :
  (low < high)%Z -> (low <= fst (Sample.rvs low high r) < high)%Z.
Proof.
  intros H. simpl. assert (B := Z.mod_pos_bound r (high - low)). lia.
Qed.

(** C8 with the sample generator. *)
Lemma randomized_search_candidates_sample :
  exists ps,
    fst (ParameterSampler Sample.RandomState Sample.seed Sample.randint Sample.rvs
                          gb_grid n_points (Some random_state) 42%Z) = Some ps
    /\ length ps = 20%nat.
Proof.
  destruct (randomized_search_candidates
              Sample.RandomState Sample.seed Sample.randint Sample.rvs
              Sample.sqrt Q Sample.Ridge_fit Sample.GBR_fit Sample.predict_row
              sample_randint_range sample_rvs_range (Some random_state) 42%Z)
    as (ps & H1 & H2 & _).
  exists ps. auto.
Defined.

(** C9 on a run of the notebook over the sample frame. *)
Lemma price_is_target_never_feature_sample :
  exists s X y,
    run_notebook Sample.csv 42%Z = Some s
    /\ supervised (tr _ _ s) X y
    /\ grid_search X y = Some (ridge_cat_gs _ _ s).
Proof.
  destruct (run_notebook Sample.csv 42%Z) as [s|] eqn:E.
  - destruct (price_is_target_never_feature _ _ _ _ _ _ _ _ _ _ _ _ _ E)
      as (_ & _ & (X & y & H1 & H2) & _).
    exists s, X, y. auto.
  - vm_compute in E. discriminate E.
Defined.

(** C10 for the column [price] on a run of the notebook over the sample frame. *)
Lemma get_dummies_keeps_numeric_columns_sample :
  exists s,
    run_notebook Sample.csv 42%Z = Some s
    /\ getitem (data _ _ s) "price" = Some Sample.price
    /\ getitem (data_cat _ _ s) "price" = Some Sample.price
    /\ index (data_cat _ _ s) = index (data _ _ s).
Proof.
  destruct (run_notebook Sample.csv 42%Z) as [s|] eqn:E.
  - assert (Hdata : data _ _ s = Sample.data).
    { apply notebook_inv in E. destruct E as (E & _).
      assert (Hclean : dropna Sample.csv ["price"] = Some Sample.data) by reflexivity.
      congruence. }
    assert (Hprice : getitem (data _ _ s) "price" = Some Sample.price)
      by (rewrite Hdata; reflexivity).
    destruct (get_dummies_keeps_numeric_columns _ _ _ _ _ _ _ _ _ _ _ _ _ _ _
                E Hprice eq_refl) as (H1 & H2 & _).
    exists s. auto.
  - vm_compute in E. discriminate E.
Defined.

Local Abbreviation search :=
  (SearchCV_fit Sample.sqrt Q Sample.Ridge_fit Sample.GBR_fit Sample.predict_row).
Local Abbreviation cv_MAE :=
  (cross_val_MAE Sample.sqrt Q Sample.Ridge_fit Sample.GBR_fit Sample.predict_row).
Local Abbreviation score_fold :=
  (fit_and_score Sample.sqrt Q Sample.Ridge_fit Sample.GBR_fit Sample.predict_row).

(** X1 on a frame that has only a [width] column. *)
Lemma price_column_required_sample :
  missing_price Sample.unpriced = None
  /\ dropna Sample.unpriced ["price"] = None
  /\ drop Sample.unpriced ["price"] = None
  /\ features Sample.unpriced = None
  /\ target Sample.unpriced = None
  /\ run_notebook Sample.unpriced 42%Z = None.
Proof.
  apply price_column_required. simpl. intuition discriminate.
Defined.

(** X2 on the sample frame, which has one missing price. *)
Lemma dropna_accounts_for_rows_sample :
  exists data,
    dropna Sample.csv ["price"] = Some data
    /\ (len data + 1 = len Sample.csv)%nat
    /\ missing_price data = Some 0%nat
    /\ wf data.
Proof.
  apply dropna_accounts_for_rows; [unfold wf; repeat constructor|reflexivity].
Defined.

(** X3 on the cleaned sample frame. *)
Lemma dropna_clean_is_identity_sample :
  dropna Sample.data ["price"] = Some Sample.data.
Proof.
  apply dropna_clean_is_identity; [unfold wf; repeat constructor|reflexivity].
Defined.

(** X5 on the encoded sample frame. *)
Lemma features_shape_sample :
  exists X,
    features (get_dummies Sample.data) = Some X
    /\ length X = 8%nat
    /\ Forall (fun r => length r = 3%nat) X.
Proof.
  destruct (features (get_dummies Sample.data)) as [X|] eqn:E.
  - exists X. split; [reflexivity|]. exact (features_shape _ _ E).
  - vm_compute in E. discriminate E.
Defined.

(** X7 for the indicator [fuel_gas] of the sample frame. *)
Lemma show_indicators_shows_group_sample :
  In {| name := "fuel_gas"; values := UInt8 [1; 0; 0; 1; 0; 1; 1; 1]%Z |}
     (columns (show_indicators (get_dummies Sample.data) "fuel"))
  /\ len (show_indicators (get_dummies Sample.data) "fuel") = 8%nat.
Proof.
  exact (show_indicators_shows_group Sample.data Sample.fuel _ Sample.fuel_gas
           (or_intror (or_introl eq_refl)) eq_refl (or_intror (or_introl eq_refl))).
Defined.



(** X9 for seven rows. *)
Lemma KFold_split_partitions_sample :
  let folds := [([2; 3; 4; 5; 6], [0; 1]); ([0; 1; 4; 5; 6], [2; 3]);
                ([0; 1; 2; 3; 5; 6], [4]); ([0; 1; 2; 3; 4; 6], [5]);
                ([0; 1; 2; 3; 4; 5], [6])]%nat in
  length folds = 5%nat
  /\ concat (map snd folds) = seq 0 7
  /\ forall train test, In (train, test) folds ->
       Permutation (train ++ test) (seq 0 7)
       /\ (7 / 5 <= length test <= 7 / 5 + 1)%nat
       /\ test <> [].
Proof.
  apply (KFold_split_partitions 5 7); [lia|reflexivity].
Defined.

(** X10 on five rows with the sample solver. *)
Lemma SearchCV_selects_first_best_sample :
  exists gs,
    search ridge_pipeline (ParameterGrid ridge_grid) Sample.X Sample.y = Some gs
    /\ (forall m, In m (mean_test_score _ gs) -> m <= best_score_ _ gs)
    /\ (forall j m, (j < best_index_ _ gs)%nat ->
                    nth_error (mean_test_score _ gs) j = Some m -> m < best_score_ _ gs).
Proof.
  destruct (search ridge_pipeline (ParameterGrid ridge_grid) Sample.X Sample.y)
    as [gs|] eqn:E.
  - exists gs. split; [reflexivity|].
    destruct (SearchCV_selects_first_best _ _ _ _ _ _ _ _ _ _ E) as (_ & _ & H1 & H2).
    auto.
  - vm_compute in E. discriminate E.
Defined.

(** X11 on five rows with the sample solver. *)
Lemma performance_of_search_sample :
  exists gs std,
    search ridge_pipeline (ParameterGrid ridge_grid) Sample.X Sample.y = Some gs
    /\ nth_error (std_test_score _ gs) (best_index_ _ gs) = Some std
    /\ performance_of Q ("Ridge num", gs)
       = Some {| Experiment := "Ridge num"; MAE_mean := - best_score_ _ gs;
                 MAE_std := std |}.
Proof.
  destruct (search ridge_pipeline (ParameterGrid ridge_grid) Sample.X Sample.y)
    as [gs|] eqn:E.
  - destruct (performance_of_search _ _ _ _ _ "Ridge num" _ _ _ _ _ E) as (std & H1 & H2).
    exists gs, std. auto.
  - vm_compute in E. discriminate E.
Defined.

(** X12 on five rows: each fold holds out one row. *)
Lemma cross_val_MAE_is_plain_mean_sample :
  exists m folds out,
    cv_MAE ridge_pipeline Sample.X Sample.y [("rgs__alpha", 1)] = Some m
    /\ KFold_split 5 (length Sample.X) = Some folds
    /\ mapM (score_fold ridge_pipeline Sample.X Sample.y [("rgs__alpha", 1)]) folds = Some out
    /\ length out = 5%nat
    /\ m == mean (map (fun o => - fst o) out).
Proof.
  destruct (cv_MAE ridge_pipeline Sample.X Sample.y [("rgs__alpha", 1)]) as [m|] eqn:E.
  - assert (Hmod : (length Sample.X mod 5 = 0)%nat) by reflexivity.
    destruct (cross_val_MAE_is_plain_mean _ _ _ _ _ _ _ _ _ _ Hmod E)
      as (folds & out & H1 & H2 & H3 & H4).
    exists m, folds, out. auto.
  - vm_compute in E. discriminate E.
Defined.

(** X13 on a run of the notebook over the sample frame. *)
Lemma notebook_needs_eight_rows_sample :
  exists s,
    run_notebook Sample.csv 42%Z = Some s
    /\ (5 <= len (tr_num _ _ s))%nat /\ (8 <= len (data _ _ s))%nat.
Proof.
  destruct (run_notebook Sample.csv 42%Z) as [s|] eqn:E.
  - exists s. split; [reflexivity|].
    exact (notebook_needs_eight_rows _ _ _ _ _ _ _ _ _ _ _ _ _ E).
  - vm_compute in E. discriminate E.
Defined.

(** X14 on a run of the notebook over the sample frame. *)
Lemma notebook_keeps_global_generator_sample :
  exists s, run_notebook Sample.csv 42%Z = Some s /\ global_rng _ _ s = 42%Z.
Proof.
  destruct (run_notebook Sample.csv 42%Z) as [s|] eqn:E.
  - exists s. split; [reflexivity|].
    exact (notebook_keeps_global_generator _ _ _ _ _ _ _ _ _ _ _ _ _ E).
  - vm_compute in E. discriminate E.
Defined.

(** X15 for a fitted imputer and a constant regressor on the five sample rows. *)
Lemma neg_mean_absolute_error_nonpositive_sample :
  exists score,
    neg_mean_absolute_error Q Sample.predict_row
      [Imputer_ Q [Some 2]; Regressor_ Q 20] Sample.X Sample.y = Some score
    /\ score <= 0 /\ length Sample.X = length Sample.y /\ Sample.X <> [].
Proof.
  destruct (neg_mean_absolute_error Q Sample.predict_row
              [Imputer_ Q [Some 2]; Regressor_ Q 20] Sample.X Sample.y) as [score|] eqn:E.
  - exists score. split; [reflexivity|].
    exact (neg_mean_absolute_error_nonpositive _ _ _ _ _ _ E).
  - vm_compute in E. discriminate E.
Defined.

(** X16 for predictions that equal the targets. *)
Lemma mean_absolute_error_zero_iff_sample :
  exists mae,
    mean_absolute_error Sample.y Sample.y = Some mae
    /\ (mae == 0 <-> Forall2 Qeq Sample.y Sample.y).
Proof.
  destruct (mean_absolute_error Sample.y Sample.y) as [mae|] eqn:E.
  - exists mae. split; [reflexivity|].
    exact (mean_absolute_error_zero_iff _ _ _ E).
  - vm_compute in E. discriminate E.
Defined.

(** X17 on a matrix whose second column has no value. *)
Lemma Imputer_fit_statistics_sample :
  exists statistics,
    Imputer_fit Sample.sparse = Some statistics
    /\ length statistics = 2%nat
    /\ forall j, (j < 2)%nat ->
         (nth_error statistics j = Some None
          <-> forall r, In r Sample.sparse -> nth j r None = None).
Proof.
  destruct (Imputer_fit Sample.sparse) as [statistics|] eqn:E.
  - exists statistics. split; [reflexivity|].
    exact (proj2 (Imputer_fit_statistics _ _ E)).
  - vm_compute in E. discriminate E.
Defined.


(** X19 for a candidate of the ridge search. *)
Lemma set_params_keeps_steps_sample :
  exists steps',
    set_params ridge_pipeline [("rgs__alpha", 10)] = Some steps'
    /\ map fst steps' = ["imputer"; "scaler"; "rgs"]
    /\ In ("imputer", Sklearn.Imputer) steps'.
Proof.
  destruct (set_params ridge_pipeline [("rgs__alpha", 10)]) as [steps'|] eqn:E.
  - exists steps'. split; [reflexivity|].
    destruct (set_params_keeps_steps _ _ _ E) as [H1 H2]. split; [exact H1|].
    apply H2; [left; reflexivity|].
    intros key v step param [[= <- <-]|[]] [= <- <-]. discriminate.
  - vm_compute in E. discriminate E.
Defined.

(** X20 on a run of the notebook over the sample frame. *)
Lemma null_counts_price_is_zero_sample :
  exists s,
    run_notebook Sample.csv 42%Z = Some s
    /\ map fst (null_counts (tr_num _ _ s)) = column_names (tr_num _ _ s)
    /\ In ("price", 0%nat) (null_counts (tr_num _ _ s)).
Proof.
  destruct (run_notebook Sample.csv 42%Z) as [s|] eqn:E.
  - exists s. split; [reflexivity|].
    refine (null_counts_price_is_zero _ _ _ _ _ _ _ _ _ _ _ _ _ _ E).
    repeat constructor; simpl; intuition discriminate.
  - vm_compute in E. discriminate E.
Defined.

(** X21 on a matrix of two rows and two columns. *)
Lemma StandardScaler_centres_sample :
  exists mean_ scale_ Xt,
    StandardScaler_fit Sample.sqrt Sample.dense = Some (mean_, scale_)
    /\ StandardScaler_transform mean_ scale_ Sample.dense = Some Xt
    /\ length Xt = 2%nat
    /\ forall j, (j < 2)%nat ->
         mean (map (fun r => match nth j r None with Some v => v | None => 0 end) Xt) == 0.
Proof.
  destruct (StandardScaler_fit Sample.sqrt Sample.dense) as [[mean_ scale_]|] eqn:E.
  - destruct (StandardScaler_centres Sample.sqrt Sample.dense mean_ scale_
                ltac:(repeat constructor) E) as (Xt & H1 & H2 & H3).
    exists mean_, scale_, Xt. auto.
  - vm_compute in E. discriminate E.
Defined.
End AtSample.
